(** * Swing-trading stock screener: indicator engine, screening rules and
      orchestration of [main.py], embedded in Rocq.

    The program works on pandas [Series] of float64.  The embedding keeps the
    special values of float64 that decide the program's behaviour (not-a-number
    and the two infinities, with the comparison and arithmetic rules numpy
    applies to them) and idealises the finite values as exact rationals:
    rounding and overflow are not modelled, and zero carries no sign (a nonzero
    finite value divided by zero gives the infinity with the sign of the
    numerator).  Finite results are kept in lowest terms. *)

From Stdlib Require Import String.
From Stdlib Require Import QArith ZArith List Bool Lia Lqa.
From Stdlib Require Import Sorted Permutation.
Import ListNotations.

Open Scope Q_scope.

(** ** float64 values *)

Inductive float : Type :=
  | NaN
  | PInf
  | NInf
  | Fin (q : Q).

Definition Qltb (a b : Q) : bool :=
  match a ?= b with Lt => true | _ => false end.

Definition Qzerob (a : Q) : bool := Qeq_bool a 0.

(** [x < y] on float64: false as soon as one side is not-a-number. *)
Definition flt (x y : float) : bool :=
  match x, y with
  | NaN, _ | _, NaN => false
  | _, NInf => false
  | NInf, _ => true
  | PInf, _ => false
  | Fin _, PInf => true
  | Fin a, Fin b => Qltb a b
  end.

(** [x > y]. *)
Definition fgt (x y : float) : bool := flt y x.

(** [x == y] on float64 (not-a-number differs from everything, itself
    included). *)
Definition feqb (x y : float) : bool :=
  match x, y with
  | PInf, PInf | NInf, NInf => true
  | Fin a, Fin b => Qeq_bool a b
  | _, _ => false
  end.

(** [x != y]. *)
Definition fne (x y : float) : bool := negb (feqb x y).

Definition fneg (x : float) : float :=
  match x with
  | NaN => NaN
  | PInf => NInf
  | NInf => PInf
  | Fin a => Fin (Qred (- a))
  end.

Definition fadd (x y : float) : float :=
  match x, y with
  | NaN, _ | _, NaN => NaN
  | PInf, NInf | NInf, PInf => NaN
  | PInf, _ | _, PInf => PInf
  | NInf, _ | _, NInf => NInf
  | Fin a, Fin b => Fin (Qred (a + b))
  end.

Definition fsub (x y : float) : float :=
  match x, y with
  | NaN, _ | _, NaN => NaN
  | PInf, PInf | NInf, NInf => NaN
  | PInf, _ | _, NInf => PInf
  | NInf, _ | _, PInf => NInf
  | Fin a, Fin b => Fin (Qred (a - b))
  end.

(** The infinity carrying the sign of the product or quotient of an infinity
    of sign [pos] with the finite value [a] (zero counted as positive). *)
Definition signed_inf (pos : bool) (a : Q) : float :=
  if Bool.eqb pos (negb (Qltb a 0)) then PInf else NInf.

Definition fmul (x y : float) : float :=
  match x, y with
  | NaN, _ | _, NaN => NaN
  | PInf, PInf | NInf, NInf => PInf
  | PInf, NInf | NInf, PInf => NInf
  | PInf, Fin a | Fin a, PInf => if Qzerob a then NaN else signed_inf true a
  | NInf, Fin a | Fin a, NInf => if Qzerob a then NaN else signed_inf false a
  | Fin a, Fin b => Fin (Qred (a * b))
  end.

Definition fdiv (x y : float) : float :=
  match x, y with
  | NaN, _ | _, NaN => NaN
  | PInf, PInf | PInf, NInf | NInf, PInf | NInf, NInf => NaN
  | PInf, Fin b => signed_inf true b
  | NInf, Fin b => signed_inf false b
  | Fin _, PInf | Fin _, NInf => Fin 0
  | Fin a, Fin b =>
      if Qzerob b then
        if Qzerob a then NaN else signed_inf true a
      else Fin (Qred (a / b))
  end.

(** [x == x]: how pandas tests that a value is an observation. *)
Definition is_observation (x : float) : bool := feqb x x.

(** A defined value: anything but not-a-number. *)
Definition defined (x : float) : Prop := x <> NaN.

Definition of_Z (z : Z) : float := Fin (inject_Z z).

(** ** pandas Series operations used by the program *)

Definition Series := list float.

(** [s.iloc[-1]]; an empty series raises [IndexError]. *)
Inductive exn : Type :=
  | IndexError
  | ValueError.

Inductive result (A : Type) : Type :=
  | Ok (a : A)
  | Raise (e : exn).
Arguments Ok {A} a.
Arguments Raise {A} e.

Definition bind {A B : Type} (m : result A) (k : A -> result B) : result B :=
  match m with
  | Ok a => k a
  | Raise e => Raise e
  end.

Notation "x <- m ;; k" := (bind m (fun x => k))
  (at level 61, m at next level, right associativity).

Definition iloc_last (s : Series) : result float :=
  match rev s with
  | [] => Raise IndexError
  | x :: _ => Ok x
  end.

(** [s.diff()]: first difference; the first position has no predecessor. *)
Fixpoint diff_from (prev : float) (s : Series) : Series :=
  match s with
  | [] => []
  | x :: r => fsub x prev :: diff_from x r
  end.

Definition diff (s : Series) : Series :=
  match s with
  | [] => []
  | x :: r => NaN :: diff_from x r
  end.

(** [s > c] and [s < c] against a scalar: a boolean series. *)
Definition series_gt (s : Series) (c : float) : list bool :=
  map (fun x => fgt x c) s.

Definition series_lt (s : Series) (c : float) : list bool :=
  map (fun x => flt x c) s.

(** [s.where(cond, other)]: keeps the value where [cond] holds and puts
    [other] elsewhere. *)
Definition where_ (s : Series) (cond : list bool) (other : float) : Series :=
  map (fun p : float * bool => if snd p then fst p else other)
    (combine s cond).

(** [-s], [a - b], [a / b], [c - s], [c / s], [c + s] position by position. *)
Definition series_neg (s : Series) : Series := map fneg s.

Definition series_sub (a b : Series) : Series :=
  map (fun p : float * float => fsub (fst p) (snd p)) (combine a b).

Definition series_div (a b : Series) : Series :=
  map (fun p : float * float => fdiv (fst p) (snd p)) (combine a b).

Definition scalar_sub (c : float) (s : Series) : Series := map (fsub c) s.
Definition scalar_div (c : float) (s : Series) : Series := map (fdiv c) s.
Definition scalar_add (c : float) (s : Series) : Series := map (fadd c) s.

(** *** [s.rolling(window=w).mean()]

    pandas turns the infinities into missing values first, and gives a mean
    only where the window holds at least [min_periods = w] observations (and
    at least one). *)

Definition observations (win : Series) : list Q :=
  flat_map (fun x : float => match x with Fin q => [q] | _ => [] end) win.

Definition Qsum (l : list Q) : Q := fold_right Qplus 0 l.

Definition window_at (w i : nat) (s : Series) : Series :=
  skipn (i + 1 - w) (firstn (i + 1) s).

Definition calc_mean (minp : nat) (win : Series) : float :=
  let obs := observations win in
  let nobs := length obs in
  if (minp <=? nobs)%nat && (0 <? nobs)%nat
  then Fin (Qred (Qsum obs / inject_Z (Z.of_nat nobs)))
  else NaN.

Definition rolling_mean (w : nat) (s : Series) : Series :=
  map (fun i => calc_mean w (window_at w i s)) (seq 0 (length s)).

(** *** [s.ewm(span=span).mean()]

    With the defaults of pandas: [adjust=True], [ignore_na=False],
    [min_periods=0] (at least one observation is always required).  The
    constructor rejects a span below one. *)

Definition get_center_of_mass (span : Z) : result Q :=
  if (span <? 1)%Z then Raise ValueError
  else Ok ((inject_Z span - 1) / 2).

Fixpoint ewm_loop (old_wt_factor new_wt : Q) (minp : nat)
    (weighted : float) (old_wt : Q) (nobs : nat) (vals : Series) : Series :=
  match vals with
  | [] => []
  | cur :: rest =>
      let is_obs := is_observation cur in
      let nobs := (nobs + if is_obs then 1 else 0)%nat in
      let '(weighted, old_wt) :=
        if is_observation weighted then
          (* is_observation or not ignore_na *)
          let old_wt := Qred (old_wt * old_wt_factor) in
          if is_obs then
            let weighted :=
              if fne weighted cur then
                fdiv (fadd (fmul (Fin old_wt) weighted) (fmul (Fin new_wt) cur))
                     (Fin (Qred (old_wt + new_wt)))
              else weighted in
            (* adjust *)
            (weighted, Qred (old_wt + new_wt))
          else (weighted, old_wt)
        else if is_obs then (cur, old_wt)
        else (weighted, old_wt) in
      (if (minp <=? nobs)%nat then weighted else NaN)
        :: ewm_loop old_wt_factor new_wt minp weighted old_wt nobs rest
  end.

Definition ewm_values (com : Q) (s : Series) : Series :=
  let alpha := 1 / (1 + com) in
  let old_wt_factor := 1 - alpha in
  let new_wt := 1 in
  let minp := 1%nat in
  match s with
  | [] => []
  | v0 :: rest =>
      let nobs := if is_observation v0 then 1%nat else 0%nat in
      (if (minp <=? nobs)%nat then v0 else NaN)
        :: ewm_loop old_wt_factor new_wt minp v0 1 nobs rest
  end.

Definition ewm_mean (span : Z) (s : Series) : result Series :=
  com <- get_center_of_mass span ;;
  Ok (ewm_values com s).

(** ** Configuration *)

Open Scope string_scope.

Definition INDONESIAN_STOCKS : list string :=
  [ "BBCA.JK"; "BBRI.JK"; "BMRI.JK"; "INDF.JK"; "TLKM.JK";
    "UNVR.JK"; "GGRM.JK"; "ASII.JK"; "PGAS.JK"; "ADRO.JK" ].

Close Scope string_scope.

Definition RSI_PERIOD : nat := 14.
Definition MACD_FAST : Z := 12.
Definition MACD_SLOW : Z := 26.
Definition MACD_SIGNAL : Z := 9.
Definition LOOKBACK_DAYS : Z := 100.

(** ** Technical indicators *)

(** The two rolling means of [calculate_rsi]. *)
Definition rsi_gain (prices : Series) (period : nat) : Series :=
  let delta := diff prices in
  rolling_mean period (where_ delta (series_gt delta (Fin 0)) (Fin 0)).

Definition rsi_loss (prices : Series) (period : nat) : Series :=
  let delta := diff prices in
  rolling_mean period
    (series_neg (where_ delta (series_lt delta (Fin 0)) (Fin 0))).

Definition calculate_rsi (prices : Series) (period : nat) : Series :=
  let gain := rsi_gain prices period in
  let loss := rsi_loss prices period in
  let rs := series_div gain loss in
  let rsi :=
    scalar_sub (Fin 100) (scalar_div (Fin 100) (scalar_add (Fin 1) rs)) in
  rsi.

Record macd_result : Type := {
  m_macd : Series;
  m_signal : Series;
  m_histogram : Series
}.

Definition calculate_macd (prices : Series) (fast slow signal : Z)
    : result macd_result :=
  ema_fast <- ewm_mean fast prices ;;
  ema_slow <- ewm_mean slow prices ;;
  let macd_line := series_sub ema_fast ema_slow in
  signal_line <- ewm_mean signal macd_line ;;
  let histogram := series_sub macd_line signal_line in
  Ok {| m_macd := macd_line; m_signal := signal_line;
        m_histogram := histogram |}.

(** ** Screening logic *)

(** One daily bar; only the two columns the program reads are kept. *)
Record bar : Type := {
  Close : float;
  Volume : float
}.

Definition DataFrame := list bar.

(** The reason strings, in the order of the source; the two RSI reasons
    carry the value the source prints with one decimal. *)
Inductive reason : Type :=
  | RsiNeutralZone (current_rsi : float)
      (* "RSI {current_rsi:.1f} in neutral zone (40-60)" *)
  | RsiTradingZone (current_rsi : float)
      (* "RSI {current_rsi:.1f} in trading zone (30-70)" *)
  | MacdHistogramPositive
      (* "MACD histogram positive (bullish)" *)
  | MacdAboveSignal
      (* "MACD above signal line" *)
  | PriceAboveSma20
      (* "Price above 20-day SMA (short-term uptrend)" *)
  | PriceAboveSma50.
      (* "Price above 50-day SMA (medium-term uptrend)" *)

Record signals : Type := {
  ticker : string;
  price : float;
  rsi : float;
  macd : float;
  signal_line : float;
  histogram : float;
  sma_20 : float;
  sma_50 : float;
  sma_200 : float;
  volume : float;
  avg_volume : float;
  score : Z;
  reasons : list reason
}.

(** The running pair [(score, reasons)] of the scoring block, and its five
    criteria as the successive updates the source performs. *)
Definition tally : Type := Z * list reason.

Open Scope Z_scope.

Definition criterion1 (current_rsi : float) (t : tally) : tally :=
  let '(score, reasons) := t in
  if flt (of_Z 30) current_rsi && flt current_rsi (of_Z 70) then
    let score := score + 1 in
    if flt (of_Z 40) current_rsi && flt current_rsi (of_Z 60) then
      (score + 1, reasons ++ [RsiNeutralZone current_rsi])
    else
      (score, reasons ++ [RsiTradingZone current_rsi])
  else (score, reasons).

Definition criterion2 (current_histogram : float) (t : tally) : tally :=
  let '(score, reasons) := t in
  if fgt current_histogram (of_Z 0)
  then (score + 1, reasons ++ [MacdHistogramPositive])
  else (score, reasons).

Definition criterion3 (current_macd current_signal : float) (t : tally)
    : tally :=
  let '(score, reasons) := t in
  if fgt current_macd current_signal
  then (score + 1, reasons ++ [MacdAboveSignal])
  else (score, reasons).

Definition criterion4 (current_price current_sma_20 : float) (t : tally)
    : tally :=
  let '(score, reasons) := t in
  if fgt current_price current_sma_20
  then (score + 1, reasons ++ [PriceAboveSma20])
  else (score, reasons).

Definition criterion5 (current_price current_sma_50 : float) (t : tally)
    : tally :=
  let '(score, reasons) := t in
  if fgt current_price current_sma_50
  then (score + 1, reasons ++ [PriceAboveSma50])
  else (score, reasons).

Definition scoring (current_price current_rsi current_macd current_signal
    current_histogram current_sma_20 current_sma_50 : float) : tally :=
  criterion5 current_price current_sma_50
    (criterion4 current_price current_sma_20
      (criterion3 current_macd current_signal
        (criterion2 current_histogram
          (criterion1 current_rsi (0, []))))).

Close Scope Z_scope.

(** The body of the [try] block of [screen_stock]. *)
Definition screen_stock_body (ticker : string) (data : DataFrame)
    : result (option signals) :=
  if (length data <? RSI_PERIOD)%nat then Ok None
  else
    let close_prices := map Close data in
    let rsi := calculate_rsi close_prices RSI_PERIOD in
    macd_data <- calculate_macd close_prices MACD_FAST MACD_SLOW MACD_SIGNAL ;;
    let sma_20 := rolling_mean 20 close_prices in
    let sma_50 := rolling_mean 50 close_prices in
    let sma_200 := rolling_mean 200 close_prices in
    current_price <- iloc_last close_prices ;;
    current_rsi <- iloc_last rsi ;;
    current_macd <- iloc_last (m_macd macd_data) ;;
    current_signal <- iloc_last (m_signal macd_data) ;;
    current_histogram <- iloc_last (m_histogram macd_data) ;;
    current_sma_20 <- iloc_last sma_20 ;;
    current_sma_50 <- iloc_last sma_50 ;;
    current_sma_200 <- iloc_last sma_200 ;;
    avg_volume <- iloc_last (rolling_mean 20 (map Volume data)) ;;
    current_volume <- iloc_last (map Volume data) ;;
    let '(score, reasons) :=
      scoring current_price current_rsi current_macd current_signal
        current_histogram current_sma_20 current_sma_50 in
    Ok (Some {| ticker := ticker;
                price := current_price;
                rsi := current_rsi;
                macd := current_macd;
                signal_line := current_signal;
                histogram := current_histogram;
                sma_20 := current_sma_20;
                sma_50 := current_sma_50;
                sma_200 := current_sma_200;
                volume := current_volume;
                avg_volume := avg_volume;
                score := score;
                reasons := reasons |}).

(** [screen_stock]: any exception of the body is caught and gives [None]. *)
Definition screen_stock (ticker : string) (data : DataFrame)
    : option signals :=
  match screen_stock_body ticker data with
  | Ok r => r
  | Raise _ => None
  end.

(** ** Orchestration *)

(** [results.sort(key=key, reverse=True)]: Python's sort is stable, also
    when reversed; modelled by insertion from the right, each element going
    in front of the first one whose key is not larger. *)
Section ListSort.
Context {A : Type}.
Variable key : A -> Z.

Fixpoint insert_reverse (x : A) (l : list A) : list A :=
  match l with
  | [] => [x]
  | y :: r =>
      if (key y <=? key x)%Z then x :: y :: r
      else y :: insert_reverse x r
  end.

Definition sort_reverse (l : list A) : list A :=
  fold_right insert_reverse [] l.
End ListSort.

(** The lines the loop prints for one ticker. *)
Inductive outcome : Type :=
  | FAILED_TO_FETCH_DATA
  | FAILED_TO_SCREEN
  | OK.

Section Orchestrator.
(** [yf.download] over the look-back window of the run: the rows it
    returns for a ticker, or the exception it raises. *)
Variable download : string -> result DataFrame.

Definition fetch_stock_data (ticker : string) : option DataFrame :=
  match download ticker with
  | Ok data => if (length data =? 0)%nat then None else Some data
  | Raise _ => None
  end.

(** The [for] loop of [run_screener]: the list [results] it grows and the
    outcome it prints for each ticker, in order. *)
Fixpoint screen_each (tickers : list string) (results : list signals)
    : list signals * list (string * outcome) :=
  match tickers with
  | [] => (results, [])
  | ticker :: rest =>
      match fetch_stock_data ticker with
      | None =>
          let '(results, printed) := screen_each rest results in
          (results, (ticker, FAILED_TO_FETCH_DATA) :: printed)
      | Some data =>
          match screen_stock ticker data with
          | None =>
              let '(results, printed) := screen_each rest results in
              (results, (ticker, FAILED_TO_SCREEN) :: printed)
          | Some signals =>
              let '(results, printed) :=
                screen_each rest (results ++ [signals]) in
              (results, (ticker, OK) :: printed)
          end
      end
  end.

(** [run_screener] over a ticker list: the results in the order they are
    displayed, and the outcomes printed while screening. *)
Definition run_screener_on (tickers : list string)
    : list signals * list (string * outcome) :=
  let '(results, printed) := screen_each tickers [] in
  (sort_reverse score results, printed).

Definition run_screener : list signals * list (string * outcome) :=
  run_screener_on INDONESIAN_STOCKS.
End Orchestrator.

(** What [run_screener] displays for each result and in its summary. *)

(** The two characters of the score display. *)
Inductive star : Type :=
  | FilledStar    (* "★" *)
  | HollowStar.   (* "☆" *)

(** ["★" * score + "☆" * (5 - score)]: a string repeated a negative number
    of times is empty. *)
Definition score_display (score : Z) : list star :=
  repeat FilledStar (Z.to_nat score)
    ++ repeat HollowStar (Z.to_nat (5 - score)).

(** [[r for r in results if r['score'] >= 4]]. *)
Definition strong_candidates (results : list signals) : list signals :=
  filter (fun r => (4 <=? score r)%Z) results.

(** ** Notions used in the statements *)

(** The value [calculate_rsi] gives at one position, from the two rolling
    means there. *)
Definition rsi_value (gain loss : float) : float :=
  fsub (Fin 100) (fdiv (Fin 100) (fadd (Fin 1) (fdiv gain loss))).

(** A series holding a value at position [i]. *)
Definition at_index (s : Series) (i : nat) (v : float) : Prop :=
  nth_error s i = Some v.

(** The decay factor of a span, as the specification writes it. *)
Definition span_alpha (span : Z) : Q := 2 / (inject_Z span + 1).

(** The plain smoothing recurrence [alpha * x + (1 - alpha) * ema_prev]. *)
Definition plain_recurrence (alpha x ema_prev : Q) : Q :=
  alpha * x + (1 - alpha) * ema_prev.

(** Total weight carried by the positions [0..i] under the adjusted
    convention, for the decay [f = 1 - alpha]:
    [1 + f + f^2 + ... + f^i]. *)
Fixpoint adjust_weight (f : Q) (i : nat) : Q :=
  match i with
  | O => 1
  | S k => 1 + f * adjust_weight f k
  end.

(** The adjusted recurrence: the previous mean counts with the decayed
    total weight of the past, the new value with weight one. *)
Definition adjusted_recurrence (f : Q) (i : nat) (x ema_prev : Q) : Q :=
  (x + f * adjust_weight f i * ema_prev) / (1 + f * adjust_weight f i).

(** The most recent value of a series, what [iloc[-1]] reads on a non-empty
    one. *)
Definition latest (s : Series) : float := last s NaN.

(** Fifty bars: forty-six closes at 100, then 97, 101, 98, 102. *)
Definition flat_then_swing : DataFrame :=
  map (fun c => {| Close := of_Z c; Volume := of_Z 1000 |})
      (repeat 100%Z 46 ++ [97; 101; 98; 102]%Z).

(** [n] bars with the same close [c]. *)
Definition flat_bars (c : Q) (v : float) (n : nat) : DataFrame :=
  repeat {| Close := Fin c; Volume := v |} n.

(** Fourteen bars whose closes rise by one a day from 1 to 14. *)
Definition fourteen_rising_bars : DataFrame :=
  map (fun c => {| Close := of_Z c; Volume := of_Z 1000 |})
      [1; 2; 3; 4; 5; 6; 7; 8; 9; 10; 11; 12; 13; 14]%Z.

(** A screening result with a given ticker and score, the other fields
    left undefined. *)
Definition result_with (t : string) (sc : Z) : signals :=
  {| ticker := t; price := NaN; rsi := NaN; macd := NaN; signal_line := NaN;
     histogram := NaN; sma_20 := NaN; sma_50 := NaN; sma_200 := NaN;
     volume := NaN; avg_volume := NaN; score := sc; reasons := [] |}.

(** A data source that has five bars for PGAS.JK and fourteen for any other
    ticker. *)
Definition short_history_source (t : string) : result DataFrame :=
  if String.eqb t "PGAS.JK" then Ok (firstn 5 fourteen_rising_bars)
  else Ok fourteen_rising_bars.

(** A finite, non-negative value. *)
Definition nonneg (x : float) : Prop := exists q, x = Fin q /\ 0 <= q.





Definition is_ok (o : outcome) : bool :=
  match o with OK => true | _ => false end.

(** A data source whose download raises for PGAS.JK and has fourteen bars
    for any other ticker. *)
Definition unavailable_source (t : string) : result DataFrame :=
  if String.eqb t "PGAS.JK" then Raise ValueError
  else Ok fourteen_rising_bars.

(* ------------------------------------------------------------------ *)
(** * Properties *)

(** ** float64 *)

Lemma Qltb_iff (a b : Q) : Qltb a b = true <-> a < b.
Proof.
  unfold Qltb. rewrite Qlt_alt.
  destruct (a ?= b); split; congruence.
Qed.

Lemma Qltb_false_iff (a b : Q) : Qltb a b = false <-> b <= a.
Proof.
  rewrite <- Bool.not_true_iff_false, Qltb_iff. split.
  - apply Qnot_lt_le.
  - apply Qle_not_lt.
Qed.

Lemma Qzerob_iff (a : Q) : Qzerob a = true <-> a == 0.
Proof. apply Qeq_bool_iff. Qed.

Lemma flt_nan_l (x : float) : flt NaN x = false.
Proof. reflexivity. Qed.

Lemma flt_nan_r (x : float) : flt x NaN = false.
Proof. destruct x; reflexivity. Qed.

Lemma fgt_nan_l (x : float) : fgt NaN x = false.
Proof. apply flt_nan_r. Qed.

Lemma fgt_nan_r (x : float) : fgt x NaN = false.
Proof. reflexivity. Qed.

Lemma fdiv_nan_l (x : float) : fdiv NaN x = NaN.
Proof. reflexivity. Qed.

Lemma fdiv_zero_zero (a b : Q) :
  a == 0 -> b == 0 -> fdiv (Fin a) (Fin b) = NaN.
Proof.
  intros Ha Hb. unfold fdiv.
  apply Qzerob_iff in Ha, Hb. now rewrite Ha, Hb.
Qed.

Lemma fdiv_pos_zero (a b : Q) :
  0 < a -> b == 0 -> fdiv (Fin a) (Fin b) = PInf.
Proof.
  intros Ha Hb. unfold fdiv, signed_inf.
  apply Qzerob_iff in Hb. rewrite Hb.
  assert (Hz : Qzerob a = false).
  { apply Bool.not_true_iff_false. rewrite Qzerob_iff.
    intros E. rewrite E in Ha. now apply Qlt_irrefl in Ha. }
  assert (Hn : Qltb a 0 = false) by (apply Qltb_false_iff; lra).
  now rewrite Hz, Hn.
Qed.

(** The sign of a quotient by zero is immaterial to the RSI: both
    infinities saturate it to 100. *)
Lemma rsi_value_saturates (g l : float) :
  fdiv g l = PInf \/ fdiv g l = NInf -> rsi_value g l = Fin 100.
Proof. unfold rsi_value. intros [-> | ->]; reflexivity. Qed.

Lemma rsi_value_nan (g l : float) : fdiv g l = NaN -> rsi_value g l = NaN.
Proof. unfold rsi_value. now intros ->. Qed.

(** The histogram is positive exactly when the MACD line is above the
    signal line. *)
Lemma fgt_fsub_zero (m g : float) : fgt (fsub m g) (of_Z 0) = fgt m g.
Proof.
  destruct m as [| | |a], g as [| | |b]; try reflexivity.
  unfold fgt, fsub, of_Z, flt.
  destruct (Qltb b a) eqn:E.
  - apply Qltb_iff in E. apply Qltb_iff.
    rewrite Qred_correct. unfold inject_Z. lra.
  - apply Qltb_false_iff in E. apply Qltb_false_iff.
    rewrite Qred_correct. unfold inject_Z. lra.
Qed.

(** ** Series *)

Lemma nth_error_combine {A B : Type} (a : list A) (b : list B) (i : nat) :
  nth_error (combine a b) i =
  match nth_error a i, nth_error b i with
  | Some x, Some y => Some (x, y)
  | _, _ => None
  end.
Proof.
  revert b i. induction a as [|x a IH]; intros [|y b] [|i]; simpl; auto.
  - now destruct (nth_error a i).
Qed.

Lemma where_self (s : Series) (f : float -> bool) (other : float) :
  where_ s (map f s) other = map (fun x => if f x then x else other) s.
Proof.
  unfold where_. induction s as [|x s IH]; simpl; [reflexivity|].
  now rewrite IH.
Qed.

Lemma length_diff_from (p : float) (s : Series) :
  length (diff_from p s) = length s.
Proof. revert p. induction s; simpl; auto. Qed.

Lemma length_diff (s : Series) : length (diff s) = length s.
Proof. destruct s; simpl; [reflexivity|]. now rewrite length_diff_from. Qed.

Lemma length_rolling_mean (w : nat) (s : Series) :
  length (rolling_mean w s) = length s.
Proof. unfold rolling_mean. now rewrite length_map, length_seq. Qed.

Lemma nth_error_rolling_mean (w : nat) (s : Series) (i : nat) :
  (i < length s)%nat ->
  nth_error (rolling_mean w s) i = Some (calc_mean w (window_at w i s)).
Proof.
  intros Hi. unfold rolling_mean.
  rewrite nth_error_map, nth_error_seq.
  apply Nat.ltb_lt in Hi. now rewrite Hi.
Qed.

Lemma length_observations (win : Series) :
  (length (observations win) <= length win)%nat.
Proof.
  unfold observations. induction win as [|x win IH]; simpl; [lia|].
  destruct x; simpl; lia.
Qed.

Lemma length_window_at (w i : nat) (s : Series) :
  (length (window_at w i s) <= Nat.min w (i + 1))%nat.
Proof.
  unfold window_at. rewrite length_skipn, length_firstn. lia.
Qed.

(** Warm-up of a rolling mean: nothing before the window is full. *)
Lemma calc_mean_short (minp : nat) (win : Series) :
  (length win < minp)%nat -> calc_mean minp win = NaN.
Proof.
  intros H. unfold calc_mean.
  pose proof (length_observations win) as Ho.
  destruct (Nat.leb_spec minp (length (observations win))); [lia|reflexivity].
Qed.

Lemma rolling_mean_warmup (w : nat) (s : Series) (i : nat) :
  (i + 1 < w)%nat -> (i < length s)%nat ->
  nth_error (rolling_mean w s) i = Some NaN.
Proof.
  intros Hw Hi. rewrite nth_error_rolling_mean by assumption.
  f_equal. apply calc_mean_short.
  pose proof (length_window_at w i s). lia.
Qed.

(** A window shorter than the series length never holds a mean. *)
Lemma rolling_mean_too_short (w : nat) (s : Series) (i : nat) :
  (length s < w)%nat -> (i < length s)%nat ->
  nth_error (rolling_mean w s) i = Some NaN.
Proof. intros Hw Hi. apply rolling_mean_warmup; lia. Qed.

(** ** The RSI *)

Lemma rsi_gain_eq (prices : Series) (period : nat) :
  rsi_gain prices period =
  rolling_mean period
    (map (fun d => if fgt d (Fin 0) then d else Fin 0) (diff prices)).
Proof. unfold rsi_gain, series_gt. now rewrite where_self. Qed.

Lemma rsi_loss_eq (prices : Series) (period : nat) :
  rsi_loss prices period =
  rolling_mean period
    (map fneg (map (fun d => if flt d (Fin 0) then d else Fin 0)
                 (diff prices))).
Proof. unfold rsi_loss, series_lt, series_neg. now rewrite where_self. Qed.

Lemma length_rsi_gain (prices : Series) (period : nat) :
  length (rsi_gain prices period) = length prices.
Proof.
  now rewrite rsi_gain_eq, length_rolling_mean, length_map, length_diff.
Qed.

Lemma length_rsi_loss (prices : Series) (period : nat) :
  length (rsi_loss prices period) = length prices.
Proof.
  now rewrite rsi_loss_eq, length_rolling_mean, !length_map, length_diff.
Qed.

Lemma nth_error_calculate_rsi (prices : Series) (period i : nat) :
  nth_error (calculate_rsi prices period) i =
  match nth_error (rsi_gain prices period) i,
        nth_error (rsi_loss prices period) i with
  | Some g, Some l => Some (rsi_value g l)
  | _, _ => None
  end.
Proof.
  unfold calculate_rsi, scalar_sub, scalar_div, scalar_add, series_div.
  rewrite !nth_error_map, nth_error_combine.
  destruct (nth_error (rsi_gain prices period) i);
    destruct (nth_error (rsi_loss prices period) i); reflexivity.
Qed.

Lemma length_calculate_rsi (prices : Series) (period : nat) :
  length (calculate_rsi prices period) = length prices.
Proof.
  unfold calculate_rsi, scalar_sub, scalar_div, scalar_add, series_div.
  rewrite !length_map, length_combine, length_rsi_gain, length_rsi_loss.
  apply Nat.min_id.
Qed.

Lemma diff_from_repeat (c : Q) (m : nat) :
  diff_from (Fin c) (repeat (Fin c) m) = repeat (Fin (Qred (c - c))) m.
Proof. induction m as [|m IH]; simpl; [reflexivity|]. now rewrite IH. Qed.

Lemma Forall_firstn {A : Type} (P : A -> Prop) (n : nat) (l : list A) :
  Forall P l -> Forall P (firstn n l).
Proof.
  intros H. rewrite <- (firstn_skipn n l) in H.
  now apply Forall_app in H.
Qed.

Lemma Forall_skipn {A : Type} (P : A -> Prop) (n : nat) (l : list A) :
  Forall P l -> Forall P (skipn n l).
Proof.
  intros H. rewrite <- (firstn_skipn n l) in H.
  now apply Forall_app in H.
Qed.

Lemma Qsum_zero (l : list Q) : Forall (fun q => q == 0) l -> Qsum l == 0.
Proof.
  induction 1 as [|q l Hq _ IH]; simpl; [reflexivity|].
  rewrite Hq, IH. reflexivity.
Qed.

Lemma observations_zero (win : Series) :
  Forall (fun x => x = Fin 0) win ->
  Forall (fun q => q == 0) (observations win).
Proof.
  unfold observations.
  induction 1 as [|x win Hx _ IH]; simpl; [constructor|].
  subst x. simpl. constructor; [reflexivity|assumption].
Qed.

(** The mean of a window of zeros is missing or null. *)
Lemma calc_mean_zero (minp : nat) (win : Series) :
  Forall (fun x => x = Fin 0) win ->
  calc_mean minp win = NaN \/
  exists z, calc_mean minp win = Fin z /\ z == 0.
Proof.
  intros H. unfold calc_mean.
  destruct ((minp <=? _)%nat && _); [right|now left].
  eexists. split; [reflexivity|].
  rewrite Qred_correct, (Qsum_zero _ (observations_zero _ H)).
  reflexivity.
Qed.

Lemma rsi_gain_constant (c : Q) (n period : nat) :
  rsi_gain (repeat (Fin c) n) period = rolling_mean period (repeat (Fin 0) n).
Proof.
  rewrite rsi_gain_eq. f_equal.
  destruct n as [|m]; [reflexivity|].
  simpl repeat. unfold diff. rewrite diff_from_repeat, map_cons, map_repeat.
  f_equal. f_equal. unfold fgt, flt.
  replace (Qltb 0 (Qred (c - c))) with false; [reflexivity|].
  symmetry. apply Qltb_false_iff. rewrite Qred_correct. lra.
Qed.

Lemma rsi_loss_constant (c : Q) (n period : nat) :
  rsi_loss (repeat (Fin c) n) period = rolling_mean period (repeat (Fin 0) n).
Proof.
  rewrite rsi_loss_eq. f_equal.
  destruct n as [|m]; [reflexivity|].
  simpl repeat. unfold diff.
  rewrite diff_from_repeat, !map_cons, !map_repeat.
  f_equal. f_equal. unfold flt.
  replace (Qltb (Qred (c - c)) 0) with false; [reflexivity|].
  symmetry. apply Qltb_false_iff. rewrite Qred_correct. lra.
Qed.

Lemma nth_error_diff_from (p : float) (s : Series) (j : nat) (b : float) :
  nth_error s j = Some b ->
  nth_error (diff_from p s) j =
  Some (fsub b (match j with O => p | S k => nth k s NaN end)).
Proof.
  revert p j. induction s as [|x s IH]; intros p [|j] H; try discriminate.
  - injection H as <-. reflexivity.
  - cbn [diff_from nth_error] in *. rewrite (IH x j H).
    destruct j; reflexivity.
Qed.

Lemma nth_error_diff_succ (s : Series) (j : nat) (a b : float) :
  nth_error s j = Some a -> nth_error s (S j) = Some b ->
  nth_error (diff s) (S j) = Some (fsub b a).
Proof.
  destruct s as [|x s]; [discriminate|]. intros Ha Hb.
  cbn [diff nth_error] in *. rewrite (nth_error_diff_from x s j b Hb).
  destruct j as [|k].
  - now injection Ha as <-.
  - cbn [nth_error] in Ha. now rewrite (nth_error_nth s k NaN Ha).
Qed.

Lemma diff_finite (qs : list Q) :
  Forall (fun d => d = NaN \/ exists q, d = Fin q) (diff (map Fin qs)).
Proof.
  destruct qs as [|q0 qs]; [constructor|]. cbn [map diff].
  constructor; [now left|]. revert q0.
  induction qs as [|q qs IH]; intros q0; cbn [map diff_from]; constructor.
  - right. eexists. reflexivity.
  - apply IH.
Qed.

Lemma gains_nonneg (qs : list Q) :
  Forall nonneg
    (map (fun d => if fgt d (Fin 0) then d else Fin 0) (diff (map Fin qs))).
Proof.
  apply Forall_map. eapply Forall_impl; [|apply diff_finite].
  intros d [-> | (q & ->)].
  - exists 0. split; [reflexivity|lra].
  - unfold fgt, flt. destruct (Qltb 0 q) eqn:E.
    + apply Qltb_iff in E. exists q. split; [reflexivity|lra].
    + exists 0. split; [reflexivity|lra].
Qed.

Lemma losses_nonneg (qs : list Q) :
  Forall nonneg
    (map fneg (map (fun d => if flt d (Fin 0) then d else Fin 0)
                 (diff (map Fin qs)))).
Proof.
  rewrite map_map. apply Forall_map.
  eapply Forall_impl; [|apply diff_finite].
  intros d [-> | (q & ->)].
  - exists 0. split; [reflexivity|lra].
  - unfold flt. destruct (Qltb q 0) eqn:E.
    + apply Qltb_iff in E. eexists. split; [reflexivity|].
      rewrite Qred_correct. lra.
    + exists 0. split; [reflexivity|lra].
Qed.

Lemma observations_nonneg (win : Series) :
  Forall nonneg win ->
  length (observations win) = length win /\
  Forall (fun q => 0 <= q) (observations win) /\
  forall q, In (Fin q) win -> In q (observations win).
Proof.
  unfold observations.
  induction 1 as [|x win (q & -> & Hq) _ (IH1 & IH2 & IH3)];
    cbn [flat_map app length].
  - split; [reflexivity|]. split; [constructor|]. intros q [].
  - split; [now rewrite IH1|]. split; [now constructor|].
    intros q' [E|Hin]; [left; congruence | right; now apply IH3].
Qed.

Lemma Qsum_nonneg (l : list Q) : Forall (fun q => 0 <= q) l -> 0 <= Qsum l.
Proof. induction 1 as [|q l Hq _ IH]; simpl; lra. Qed.

Lemma Qsum_pos (l : list Q) (q : Q) :
  Forall (fun q => 0 <= q) l -> In q l -> 0 < q -> 0 < Qsum l.
Proof.
  induction 1 as [|x l Hx Hl IH]; intros Hin Hq; [destruct Hin|].
  simpl. destruct Hin as [->|Hin].
  - pose proof (Qsum_nonneg l Hl). lra.
  - specialize (IH Hin Hq). lra.
Qed.

(** A full window of non-negative values has a non-negative mean, positive
    as soon as one of the values is. *)
Lemma calc_mean_nonneg (w : nat) (win : Series) :
  (0 < w)%nat -> length win = w -> Forall nonneg win ->
  exists G, calc_mean w win = Fin G /\ 0 <= G /\
            forall q, In (Fin q) win -> 0 < q -> 0 < G.
Proof.
  intros Hw Hl Hn.
  destruct (observations_nonneg win Hn) as (Ho & Hp & Hin).
  unfold calc_mean. rewrite Ho, Hl, Nat.leb_refl.
  replace (0 <? w)%nat with true by (symmetry; now apply Nat.ltb_lt).
  cbn [andb]. eexists. split; [reflexivity|].
  assert (Hk : 0 < inject_Z (Z.of_nat w)).
  { change 0 with (inject_Z 0). rewrite <- Zlt_Qlt. lia. }
  split.
  - rewrite Qred_correct.
    apply Qle_shift_div_l; [assumption|]. pose proof (Qsum_nonneg _ Hp). lra.
  - intros q Hq Hpos. rewrite Qred_correct.
    apply Qlt_shift_div_l; [assumption|].
    pose proof (Qsum_pos _ q Hp (Hin q Hq) Hpos). lra.
Qed.

(** With non-negative means of which one is positive the RSI is a number. *)
Lemma rsi_value_defined (G L : Q) :
  0 <= G -> 0 <= L -> 0 < G \/ 0 < L ->
  exists r, rsi_value (Fin G) (Fin L) = Fin r.
Proof.
  intros HG HL Hpos. destruct (Qeq_dec L 0) as [E|N].
  - exists 100. apply rsi_value_saturates. left.
    apply fdiv_pos_zero; [|assumption]. destruct Hpos; lra.
  - assert (HLpos : 0 < L) by lra.
    unfold rsi_value. cbn [fdiv].
    assert (Z1 : Qzerob L = false).
    { apply Bool.not_true_iff_false. now rewrite Qzerob_iff. }
    rewrite Z1. cbn [fadd].
    assert (Hrs : 0 <= G / L) by (apply Qle_shift_div_l; lra).
    assert (Z2 : Qzerob (Qred (1 + Qred (G / L))) = false).
    { apply Bool.not_true_iff_false. rewrite Qzerob_iff, !Qred_correct. lra. }
    cbn [fdiv]. rewrite Z2. cbn [fsub]. eexists. reflexivity.
Qed.

Lemma window_at_full (w i : nat) (s : Series) :
  (w <= i + 1)%nat -> (i < length s)%nat -> length (window_at w i s) = w.
Proof.
  intros Hw Hi. unfold window_at. rewrite length_skipn, length_firstn. lia.
Qed.

Lemma In_window_at (w i k : nat) (s : Series) (x : float) :
  (i + 1 - w <= k)%nat -> (k <= i)%nat -> nth_error s k = Some x ->
  In x (window_at w i s).
Proof.
  intros Hlo Hhi Hx. unfold window_at.
  apply nth_error_In with (n := (k - (i + 1 - w))%nat).
  rewrite nth_error_skipn, nth_error_firstn.
  replace (i + 1 - w + (k - (i + 1 - w)))%nat with k by lia.
  replace (k <? i + 1)%nat with true by (symmetry; apply Nat.ltb_lt; lia).
  assumption.
Qed.

(** On finite prices the RSI is a number wherever the window is full and
    holds a non-zero day-over-day change. *)
Lemma calculate_rsi_defined (qs : list Q) (period i j : nat) (a b : Q) :
  (0 < period)%nat -> (period <= i + 1)%nat -> (i < length qs)%nat ->
  (i + 1 - period <= S j)%nat -> (S j <= i)%nat ->
  nth_error qs j = Some a -> nth_error qs (S j) = Some b -> ~ a == b ->
  exists r, nth_error (calculate_rsi (map Fin qs) period) i = Some (Fin r).
Proof.
  intros Hp Hw Hi Hlo Hhi Ha Hb Hab.
  rewrite nth_error_calculate_rsi, rsi_gain_eq, rsi_loss_eq.
  set (gs := map (fun d => if fgt d (Fin 0) then d else Fin 0)
               (diff (map Fin qs))).
  set (ls := map fneg (map (fun d => if flt d (Fin 0) then d else Fin 0)
                         (diff (map Fin qs)))).
  assert (Lg : length gs = length qs).
  { unfold gs. now rewrite length_map, length_diff, length_map. }
  assert (Ll : length ls = length qs).
  { unfold ls. now rewrite !length_map, length_diff, length_map. }
  rewrite !nth_error_rolling_mean by lia.
  destruct (calc_mean_nonneg period (window_at period i gs))
    as (G & -> & HG & HGpos);
    [assumption | apply window_at_full; lia
     | apply Forall_skipn, Forall_firstn, gains_nonneg |].
  destruct (calc_mean_nonneg period (window_at period i ls))
    as (L & -> & HL & HLpos);
    [assumption | apply window_at_full; lia
     | apply Forall_skipn, Forall_firstn, losses_nonneg |].
  assert (Hd : nth_error (diff (map Fin qs)) (S j)
               = Some (Fin (Qred (b - a)))).
  { apply (nth_error_diff_succ (map Fin qs) j (Fin a) (Fin b));
      now apply map_nth_error. }
  destruct (rsi_value_defined G L HG HL) as (r & ->); [|now exists r].
  destruct (Q_dec a b) as [[Hlt|Hgt]|Heq]; [left|right|contradiction].
  - apply (HGpos (Qred (b - a))); [|rewrite Qred_correct; lra].
    apply (In_window_at period i (S j)); try assumption.
    unfold gs. rewrite (map_nth_error _ _ _ Hd). f_equal.
    unfold fgt, flt.
    replace (Qltb 0 (Qred (b - a))) with true; [reflexivity|].
    symmetry. apply Qltb_iff. rewrite Qred_correct. lra.
  - apply (HLpos (Qred (- Qred (b - a)))); [|rewrite !Qred_correct; lra].
    apply (In_window_at period i (S j)); try assumption.
    unfold ls. rewrite map_map. rewrite (map_nth_error _ _ _ Hd). f_equal.
    unfold flt.
    replace (Qltb (Qred (b - a)) 0) with true; [reflexivity|].
    symmetry. apply Qltb_iff. rewrite Qred_correct. lra.
Qed.

(** C3, as the code has it: the warm-up of the RSI is one position shorter
    than the period. For every price series and every period, the RSI is
    undefined at the indices 0 through period-2 (the first period-1
    positions), and the day-over-day difference is undefined at index 0. *)
Theorem rsi_warmup (prices : Series) (period i : nat) :
  (i + 1 < period)%nat -> (i < length prices)%nat ->
  at_index (calculate_rsi prices period) i NaN /\
  at_index (diff prices) 0 NaN.
Proof.
  intros Hp Hi. split.
  - unfold at_index. rewrite nth_error_calculate_rsi.
    rewrite rsi_gain_eq, rsi_loss_eq.
    rewrite !rolling_mean_warmup;
      rewrite ?length_map, ?length_diff; auto.
  - destruct prices; [simpl in Hi; lia|reflexivity].
Qed.

Lemma rsi_warmup_witness :
  at_index (calculate_rsi [Fin 1; Fin 3; Fin 2] 3) 1 NaN /\
  at_index (diff [Fin 1; Fin 3; Fin 2]) 0 NaN.
Proof.
  apply (rsi_warmup [Fin 1; Fin 3; Fin 2] 3 1); simpl; lia.
Defined.

(** C3 as stated fails: with period 3 the RSI of the prices 1, 3, 2 is
    defined (200/3) at index 2, one of the first three positions. *)
Lemma rsi_defined_inside_period :
  (2 < 3)%nat /\
  at_index (calculate_rsi [Fin 1; Fin 3; Fin 2] 3) 2 (Fin (200 # 3)) /\
  defined (Fin (200 # 3)).
Proof. split; [lia|]. split; [reflexivity | discriminate]. Qed.

(** C4: where the rolling mean of losses is zero and the rolling mean of
    gains is positive, the RSI is exactly 100: the division by zero gives an
    infinity, not an error and not a missing value. *)
Theorem rsi_zero_loss_is_100 (prices : Series) (period i : nat) (g l : Q) :
  at_index (rsi_gain prices period) i (Fin g) ->
  at_index (rsi_loss prices period) i (Fin l) ->
  0 < g -> l == 0 ->
  at_index (calculate_rsi prices period) i (Fin 100).
Proof.
  unfold at_index. intros Hg Hl Hpos Hz.
  rewrite nth_error_calculate_rsi, Hg, Hl. f_equal.
  apply rsi_value_saturates. left. now apply fdiv_pos_zero.
Qed.

Lemma rsi_zero_loss_is_100_witness :
  at_index (calculate_rsi [Fin 1; Fin 2] 2) 1 (Fin 100).
Proof.
  apply (rsi_zero_loss_is_100 [Fin 1; Fin 2] 2 1 (1 # 2) 0);
    reflexivity.
Defined.

Lemma calculate_rsi_constant (c : Q) (n period i : nat) :
  (i < n)%nat ->
  nth_error (calculate_rsi (repeat (Fin c) n) period) i = Some NaN.
Proof.
  intros Hi.
  rewrite nth_error_calculate_rsi, rsi_gain_constant, rsi_loss_constant.
  rewrite nth_error_rolling_mean by now rewrite repeat_length.
  f_equal. apply rsi_value_nan.
  destruct (calc_mean_zero period (window_at period i (repeat (Fin 0) n)))
    as [-> | (z & -> & Hz)].
  - unfold window_at. apply Forall_skipn, Forall_firstn.
    apply Forall_forall. intros x Hx. now apply repeat_spec in Hx.
  - reflexivity.
  - now apply fdiv_zero_zero.
Qed.

(** C5, what the code does: on a constant price sequence both rolling means
    are zero once defined, the quotient 0/0 is not-a-number, and the RSI is
    undefined at every index; it is never 50. *)
Theorem rsi_constant_prices_nan (c : Q) (n period i : nat) :
  (i < n)%nat ->
  at_index (calculate_rsi (repeat (Fin c) n) period) i NaN.
Proof. apply calculate_rsi_constant. Qed.

Lemma rsi_constant_prices_nan_witness :
  at_index (calculate_rsi (repeat (Fin 100) 16) 14) 15 NaN.
Proof. apply (rsi_constant_prices_nan 100 16 14 15). lia. Defined.

(** ** The exponential mean *)

(** The example of the pandas documentation, [com = 0.5] on 0, 1, 2, NaN, 4:
    0, 0.75, 1.615385, 1.615385, 3.670213. *)
Example ewm_values_missing_value :
  ewm_values (1 # 2) [Fin 0; Fin 1; Fin 2; NaN; Fin 4] =
  [Fin 0; Fin (3 # 4); Fin (21 # 13); Fin (21 # 13); Fin (345 # 94)].
Proof. reflexivity. Qed.

Example rolling_mean_missing_value :
  rolling_mean 2 [Fin 0; Fin 1; Fin 2; NaN; Fin 4] =
  [NaN; Fin (1 # 2); Fin (3 # 2); NaN; NaN].
Proof. reflexivity. Qed.

Lemma ewm_loop_step (f w ow x : Q) (n : nat) (rest : Series) :
  0 <= f -> 0 < ow ->
  exists y,
    ewm_loop f 1 1 (Fin w) ow n (Fin x :: rest) =
    Fin y :: ewm_loop f 1 1 (Fin y) (Qred (Qred (ow * f) + 1)) (n + 1) rest /\
    y == (x + f * ow * w) / (1 + f * ow).
Proof.
  intros Hf How.
  assert (Hpos : 0 < ow * f + 1).
  { assert (0 <= ow * f) by (apply Qmult_le_0_compat; lra). lra. }
  assert (Hnz : Qzerob (Qred (Qred (ow * f) + 1)) = false).
  { apply Bool.not_true_iff_false. rewrite Qzerob_iff, !Qred_correct.
    intros E. rewrite E in Hpos. now apply Qlt_irrefl in Hpos. }
  cbn [ewm_loop]. unfold is_observation. cbn [feqb].
  rewrite !Qeq_bool_refl.
  replace (1 <=? n + 1)%nat with true by (symmetry; apply Nat.leb_le; lia).
  unfold fne. cbn [feqb].
  destruct (Qeq_bool w x) eqn:E; cbn [negb].
  - exists w. split; [reflexivity|].
    apply Qeq_bool_eq in E. rewrite <- E. field. lra.
  - cbn [fmul fadd fdiv]. rewrite Hnz.
    eexists. split; [reflexivity|].
    rewrite !Qred_correct. field. lra.
Qed.

Lemma adjust_weight_pos (f : Q) (i : nat) : 0 <= f -> 1 <= adjust_weight f i.
Proof.
  intros Hf. induction i as [|i IH]; simpl; [lra|].
  assert (0 <= f * adjust_weight f i) by (apply Qmult_le_0_compat; lra).
  lra.
Qed.

Lemma adjust_weight_comp (f f' : Q) (i : nat) :
  f == f' -> adjust_weight f i == adjust_weight f' i.
Proof.
  intros E. induction i as [|i IH]; simpl; [reflexivity|].
  now rewrite IH, E.
Qed.

Lemma adjusted_recurrence_comp (f f' : Q) (i : nat) (x e : Q) :
  f == f' -> adjusted_recurrence f i x e == adjusted_recurrence f' i x e.
Proof.
  intros E. unfold adjusted_recurrence.
  now rewrite (adjust_weight_comp f f' i E), E.
Qed.

(** The loop of pandas keeps the adjusted recurrence, position after
    position, on a series without missing values. *)
Lemma ewm_loop_adjusted (f : Q) (Hf : 0 <= f) (xs : list Q) :
  forall (w ow : Q) (n k : nat),
    ow == adjust_weight f k ->
    exists ys : list Q,
      ewm_loop f 1 1 (Fin w) ow n (map Fin xs) = map Fin ys /\
      length ys = length xs /\
      forall i x e,
        nth_error xs i = Some x -> nth_error (w :: ys) i = Some e ->
        exists e', nth_error ys i = Some e' /\
                   e' == adjusted_recurrence f (k + i) x e.
Proof.
  induction xs as [|x xs IH]; intros w ow n k How.
  - exists []. repeat split. intros [|i] ? ? H; discriminate H.
  - assert (Hpos : 0 < ow).
    { rewrite How. pose proof (adjust_weight_pos f k Hf). lra. }
    destruct (ewm_loop_step f w ow x n (map Fin xs) Hf Hpos)
      as (y & Hstep & Hy).
    destruct (IH y (Qred (Qred (ow * f) + 1)) (n + 1)%nat (S k))
      as (ys & Hys & Hlen & Hrec).
    { rewrite !Qred_correct, How. simpl. ring. }
    exists (y :: ys). split; [|split].
    + cbn [map]. rewrite Hstep, Hys. reflexivity.
    + simpl. now rewrite Hlen.
    + intros [|i] x' e Hx He.
      * injection Hx as <-. injection He as <-.
        exists y. split; [reflexivity|].
        rewrite Hy, Nat.add_0_r. unfold adjusted_recurrence.
        now rewrite How.
      * cbn [nth_error] in Hx, He |- *.
        destruct (Hrec i x' e Hx He) as (e' & He' & Heq).
        exists e'. split; [assumption|].
        now rewrite Nat.add_succ_r.
Qed.

Lemma ewm_factor_span (span : Z) :
  (1 <= span)%Z ->
  1 - 1 / (1 + (inject_Z span - 1) / 2) == 1 - span_alpha span /\
  0 <= 1 - 1 / (1 + (inject_Z span - 1) / 2).
Proof.
  intros Hs. unfold span_alpha.
  assert (H1 : 1 <= inject_Z span).
  { change 1 with (inject_Z 1). now rewrite <- Zle_Qle. }
  assert (E : 1 - 1 / (1 + (inject_Z span - 1) / 2)
              == (inject_Z span - 1) / (inject_Z span + 1)).
  { field. lra. }
  split.
  - rewrite E. field. lra.
  - rewrite E. apply Qle_shift_div_l; lra.
Qed.

(** C2, as the code has it: pandas computes the adjusted exponential mean.
    For every input sequence without missing values and every span of at
    least one, with alpha = 2/(span+1), the mean is defined at every index,
    ema[0] = x[0], and for i >= 0
    ema[i+1] = (x[i+1] + (1-alpha) W(i) ema[i]) / (1 + (1-alpha) W(i)),
    where W(i) = 1 + (1-alpha) + ... + (1-alpha)^i. *)
Theorem ewm_mean_adjusted (span : Z) (xs : list Q) :
  (1 <= span)%Z ->
  exists ema : list Q,
    ewm_mean span (map Fin xs) = Ok (map Fin ema) /\
    length ema = length xs /\
    (forall x, nth_error xs 0 = Some x -> nth_error ema 0 = Some x) /\
    (forall i x e,
        nth_error xs (S i) = Some x -> nth_error ema i = Some e ->
        exists e',
          nth_error ema (S i) = Some e' /\
          e' == adjusted_recurrence (1 - span_alpha span) i x e).
Proof.
  intros Hs. unfold ewm_mean, get_center_of_mass.
  destruct (Z.ltb_spec span 1) as [?|_]; [lia|]. cbn [bind].
  destruct (ewm_factor_span span Hs) as [Ef Hf].
  destruct xs as [|x0 xs].
  - exists []. repeat split; intros; discriminate.
  - unfold ewm_values. cbn [map]. unfold is_observation at 1 2.
    cbn [feqb]. rewrite Qeq_bool_refl. cbn [Nat.leb].
    set (f := 1 - 1 / (1 + (inject_Z span - 1) / 2)) in *.
    destruct (ewm_loop_adjusted f Hf xs x0 1 1%nat 0%nat)
      as (ys & Hys & Hlen & Hrec); [reflexivity|].
    exists (x0 :: ys). rewrite Hys. repeat split.
    + simpl. now rewrite Hlen.
    + intros x Hx. exact Hx.
    + intros i x e Hx He. cbn [nth_error] in Hx |- *.
      destruct (Hrec i x e Hx He) as (e' & He' & Heq).
      exists e'. split; [assumption|].
      rewrite Heq. cbn [Nat.add]. now apply adjusted_recurrence_comp.
Qed.

Lemma ewm_mean_adjusted_witness :
  exists ema : list Q,
    ewm_mean 3 (map Fin [0; 1]) = Ok (map Fin ema) /\
    length ema = length [0; 1] /\
    (forall x, nth_error [0; 1] 0 = Some x -> nth_error ema 0 = Some x) /\
    (forall i x e,
        nth_error [0; 1] (S i) = Some x -> nth_error ema i = Some e ->
        exists e',
          nth_error ema (S i) = Some e' /\
          e' == adjusted_recurrence (1 - span_alpha 3) i x e).
Proof. apply (ewm_mean_adjusted 3 [0; 1]). lia. Defined.

(** C2 as stated fails: for the input 0, 1 and span 3 (alpha = 1/2) the code
    gives 2/3 at index 1, where the plain recurrence gives 1/2. *)
Lemma ewm_mean_not_plain_recurrence :
  ewm_mean 3 [Fin 0; Fin 1] = Ok [Fin 0; Fin (2 # 3)] /\
  ~ (2 # 3) == plain_recurrence (span_alpha 3) 1 0.
Proof. split; [reflexivity | discriminate]. Qed.

(** ** The screening of one stock *)

Lemma iloc_last_latest (s : Series) :
  s <> [] -> iloc_last s = Ok (latest s).
Proof.
  destruct s as [|a l _] using rev_ind; [congruence|]. intros _.
  unfold iloc_last, latest. now rewrite rev_unit, last_last.
Qed.

Lemma nth_error_latest (s : Series) :
  s <> [] -> nth_error s (length s - 1) = Some (latest s).
Proof.
  destruct s as [|a l _] using rev_ind; [congruence|]. intros _.
  unfold latest. rewrite last_last, length_app, nth_error_app2; simpl.
  - replace (length l + 1 - 1 - length l)%nat with 0%nat by lia. reflexivity.
  - lia.
Qed.

Lemma nonempty_length {A : Type} (l : list A) :
  (0 < length l)%nat -> l <> [].
Proof. destruct l; simpl; [lia|discriminate]. Qed.

Lemma latest_series_sub (a b : Series) :
  length a = length b -> a <> [] ->
  latest (series_sub a b) = fsub (latest a) (latest b).
Proof.
  intros Hl Ha.
  assert (Hb : b <> []) by (destruct a, b; simpl in *; congruence).
  assert (Hs : length (series_sub a b) = length a).
  { unfold series_sub. rewrite length_map, length_combine. lia. }
  assert (Hn : series_sub a b <> []).
  { apply nonempty_length. rewrite Hs. destruct a; simpl; [congruence|lia]. }
  pose proof (nth_error_latest _ Hn) as H.
  unfold series_sub in H at 1. rewrite Hs in H.
  rewrite nth_error_map, nth_error_combine in H.
  rewrite (nth_error_latest a Ha) in H. rewrite Hl in H.
  rewrite (nth_error_latest b Hb) in H. simpl in H. congruence.
Qed.

Lemma latest_rolling_mean_short (w : nat) (s : Series) :
  (length s < w)%nat -> latest (rolling_mean w s) = NaN.
Proof.
  intros Hw. destruct s as [|x r]; [reflexivity|].
  remember (x :: r) as s eqn:E.
  assert (Hpos : (0 < length s)%nat) by (subst; simpl; lia).
  assert (Hn : rolling_mean w s <> []).
  { apply nonempty_length. now rewrite length_rolling_mean. }
  pose proof (nth_error_latest _ Hn) as H.
  rewrite length_rolling_mean, rolling_mean_too_short in H;
    [congruence | assumption | lia].
Qed.

Lemma length_ewm_loop (f nw : Q) (minp : nat) (vals : Series) :
  forall (w : float) (ow : Q) (n : nat),
    length (ewm_loop f nw minp w ow n vals) = length vals.
Proof.
  induction vals as [|cur rest IH]; intros w ow n; [reflexivity|].
  cbn [ewm_loop].
  destruct (is_observation w), (is_observation cur);
    cbn [length]; now rewrite IH.
Qed.

Lemma length_ewm_values (com : Q) (s : Series) :
  length (ewm_values com s) = length s.
Proof.
  destruct s as [|v0 rest]; [reflexivity|].
  unfold ewm_values. cbn [length]. now rewrite length_ewm_loop.
Qed.

Lemma ewm_mean_ok (span : Z) (s : Series) :
  (1 <= span)%Z ->
  exists out, ewm_mean span s = Ok out /\ length out = length s.
Proof.
  intros Hs. unfold ewm_mean, get_center_of_mass.
  destruct (Z.ltb_spec span 1) as [?|_]; [lia|]. cbn [bind].
  eexists. split; [reflexivity|]. apply length_ewm_values.
Qed.

(** pandas rejects a span below one. *)
Lemma ewm_mean_small_span (span : Z) (s : Series) :
  (span < 1)%Z -> ewm_mean span s = Raise ValueError.
Proof.
  intros H. unfold ewm_mean, get_center_of_mass.
  apply Z.ltb_lt in H. now rewrite H.
Qed.

(** With spans of at least one [calculate_macd] returns three aligned
    series, the histogram being the difference of the other two. *)
Lemma calculate_macd_ok (prices : Series) (fast slow signal : Z) :
  (1 <= fast)%Z -> (1 <= slow)%Z -> (1 <= signal)%Z ->
  exists m,
    calculate_macd prices fast slow signal = Ok m /\
    length (m_macd m) = length prices /\
    length (m_signal m) = length prices /\
    m_histogram m = series_sub (m_macd m) (m_signal m).
Proof.
  intros Hf Hs Hg. unfold calculate_macd.
  destruct (ewm_mean_ok fast prices Hf) as (ef & -> & Lf).
  destruct (ewm_mean_ok slow prices Hs) as (es & -> & Ls).
  cbn [bind].
  destruct (ewm_mean_ok signal (series_sub ef es) Hg) as (sg & -> & Lg).
  cbn [bind]. eexists. split; [reflexivity|]. cbn.
  assert (L : length (series_sub ef es) = length prices).
  { unfold series_sub. rewrite length_map, length_combine. lia. }
  repeat split; congruence.
Qed.

(** With at least [RSI_PERIOD] bars [screen_stock] returns a result, built
    from the most recent value of each indicator. *)
Lemma screen_stock_enough_data (t : string) (data : DataFrame) :
  (RSI_PERIOD <= length data)%nat ->
  exists m,
    calculate_macd (map Close data) MACD_FAST MACD_SLOW MACD_SIGNAL = Ok m /\
    length (m_macd m) = length data /\
    length (m_signal m) = length data /\
    m_histogram m = series_sub (m_macd m) (m_signal m) /\
    let close_prices := map Close data in
    let current_price := latest close_prices in
    let current_rsi := latest (calculate_rsi close_prices RSI_PERIOD) in
    let current_macd := latest (m_macd m) in
    let current_signal := latest (m_signal m) in
    let current_histogram := latest (m_histogram m) in
    let current_sma_20 := latest (rolling_mean 20 close_prices) in
    let current_sma_50 := latest (rolling_mean 50 close_prices) in
    let current_sma_200 := latest (rolling_mean 200 close_prices) in
    let tl := scoring current_price current_rsi current_macd current_signal
                current_histogram current_sma_20 current_sma_50 in
    screen_stock t data =
    Some {| ticker := t;
            price := current_price;
            rsi := current_rsi;
            macd := current_macd;
            signal_line := current_signal;
            histogram := current_histogram;
            sma_20 := current_sma_20;
            sma_50 := current_sma_50;
            sma_200 := current_sma_200;
            volume := latest (map Volume data);
            avg_volume := latest (rolling_mean 20 (map Volume data));
            score := fst tl;
            reasons := snd tl |}.
Proof.
  intros Hlen. unfold RSI_PERIOD in Hlen.
  destruct (calculate_macd_ok (map Close data) MACD_FAST MACD_SLOW MACD_SIGNAL)
    as (m & Hm & Lm & Ls & Hh);
    try (unfold MACD_FAST, MACD_SLOW, MACD_SIGNAL; lia).
  rewrite length_map in Lm, Ls.
  exists m. repeat (split; [assumption|]).
  intros. unfold screen_stock, screen_stock_body.
  destruct (Nat.ltb_spec (length data) RSI_PERIOD) as [H|_];
    [unfold RSI_PERIOD in H; lia|].
  rewrite Hm. cbn [bind].
  assert (NE : forall s : Series, length s = length data -> s <> []).
  { intros s Hs. apply nonempty_length. lia. }
  rewrite !iloc_last_latest.
  - cbn [bind]. fold close_prices current_price current_rsi current_macd
      current_signal current_histogram current_sma_20 current_sma_50
      current_sma_200 tl.
    now destruct tl.
  - apply NE. apply length_map.
  - apply NE. now rewrite length_rolling_mean, length_map.
  - apply NE. now rewrite length_rolling_mean, length_map.
  - apply NE. now rewrite length_rolling_mean, length_map.
  - apply NE. now rewrite length_rolling_mean, length_map.
  - apply NE. rewrite Hh. unfold series_sub.
    rewrite length_map, length_combine. lia.
  - apply NE. assumption.
  - apply NE. assumption.
  - apply NE. now rewrite length_calculate_rsi, length_map.
  - apply NE. apply length_map.
Qed.

(** ** The screening rules *)

Ltac criteria_cases :=
  unfold scoring, criterion1, criterion2, criterion3, criterion4, criterion5;
  repeat match goal with
         | |- context [if ?b then _ else _] => destruct b eqn:?
         end.

Lemma scoring_range (p r m g h s20 s50 : float) :
  (0 <= fst (scoring p r m g h s20 s50) <= 6)%Z.
Proof. criteria_cases; simpl; lia. Qed.

Lemma scoring_histogram_reason (p r m g h s20 s50 : float) :
  In MacdHistogramPositive (snd (scoring p r m g h s20 s50)) <->
  fgt h (of_Z 0) = true.
Proof.
  criteria_cases; simpl; intuition (try discriminate; try congruence).
Qed.

Lemma scoring_signal_reason (p r m g h s20 s50 : float) :
  In MacdAboveSignal (snd (scoring p r m g h s20 s50)) <->
  fgt m g = true.
Proof.
  criteria_cases; simpl; intuition (try discriminate; try congruence).
Qed.

Lemma scoring_sma20_reason (p r m g h s20 s50 : float) :
  In PriceAboveSma20 (snd (scoring p r m g h s20 s50)) <->
  fgt p s20 = true.
Proof.
  criteria_cases; simpl; intuition (try discriminate; try congruence).
Qed.

Lemma scoring_sma50_reason (p r m g h s20 s50 : float) :
  In PriceAboveSma50 (snd (scoring p r m g h s20 s50)) <->
  fgt p s50 = true.
Proof.
  criteria_cases; simpl; intuition (try discriminate; try congruence).
Qed.

Lemma screen_stock_too_few (t : string) (data : DataFrame) :
  (length data < RSI_PERIOD)%nat -> screen_stock t data = None.
Proof.
  intros H. unfold screen_stock, screen_stock_body.
  apply Nat.ltb_lt in H. now rewrite H.
Qed.

Lemma latest_of_nth_error (s : Series) (v : float) :
  s <> [] -> nth_error s (length s - 1) = Some v -> latest s = v.
Proof. intros Hs H. rewrite (nth_error_latest s Hs) in H. congruence. Qed.

(** C1 fails on the code: the score is an integer between 0 and 6, and 6 is
    reached, because the first criterion is worth up to two points.  On the
    fifty bars of [flat_then_swing] every rule passes and the RSI lies in the
    neutral zone. *)
Theorem score_reaches_six :
  (forall t data s,
      screen_stock t data = Some s -> (0 <= score s <= 6)%Z) /\
  exists s,
    screen_stock "BBCA.JK"%string flat_then_swing = Some s /\
    score s = 6%Z /\
    reasons s = [RsiNeutralZone (Fin (400 # 7)); MacdHistogramPositive;
                 MacdAboveSignal; PriceAboveSma20; PriceAboveSma50].
Proof.
  split.
  - intros t data s H.
    destruct (Nat.lt_ge_cases (length data) RSI_PERIOD) as [Hl|Hl].
    + rewrite screen_stock_too_few in H by assumption. discriminate.
    + destruct (screen_stock_enough_data t data Hl) as (m & _ & _ & _ & _ & E).
      cbv zeta in E. rewrite E in H. injection H as <-. cbn [score].
      apply scoring_range.
  - eexists. split; [vm_compute; reflexivity|]. split; reflexivity.
Qed.

(** C6 fails on the code where the fourteen closes are all equal: the
    screening returns a result whose 50-day and 200-day SMAs are undefined,
    but whose latest RSI is undefined too (0/0). *)
Theorem screen_flat_period_bars (t : string) (c : Q) (v : float) :
  exists s,
    screen_stock t (flat_bars c v RSI_PERIOD) = Some s /\
    rsi s = NaN /\ sma_50 s = NaN /\ sma_200 s = NaN.
Proof.
  assert (L : length (flat_bars c v RSI_PERIOD) = 14%nat)
    by apply repeat_length.
  destruct (screen_stock_enough_data t (flat_bars c v RSI_PERIOD))
    as (m & _ & _ & _ & _ & E); [rewrite L; unfold RSI_PERIOD; lia|].
  cbv zeta in E. eexists. split; [exact E|]. cbn [rsi sma_50 sma_200].
  split; [|split].
  - unfold flat_bars. rewrite map_repeat. cbn [Close].
    apply latest_of_nth_error.
    + apply nonempty_length.
      rewrite length_calculate_rsi, repeat_length. unfold RSI_PERIOD. lia.
    + rewrite length_calculate_rsi, repeat_length.
      apply calculate_rsi_constant. unfold RSI_PERIOD. lia.
  - apply latest_rolling_mean_short. rewrite length_map, L. lia.
  - apply latest_rolling_mean_short. rewrite length_map, L. lia.
Qed.

(** Apart from flat series the property holds: fourteen bars of finite
    closes with a non-zero day-over-day change give a result whose RSI is a
    number, whose three SMAs are undefined, and where neither SMA rule
    awards its point. *)
Lemma screen_period_bars (t : string) (data : DataFrame) (qs : list Q)
    (j : nat) (a b : Q) :
  map Close data = map Fin qs -> length data = RSI_PERIOD ->
  nth_error qs j = Some a -> nth_error qs (S j) = Some b -> ~ a == b ->
  exists s r,
    screen_stock t data = Some s /\
    rsi s = Fin r /\
    sma_20 s = NaN /\ sma_50 s = NaN /\ sma_200 s = NaN /\
    ~ In PriceAboveSma20 (reasons s) /\ ~ In PriceAboveSma50 (reasons s).
Proof.
  intros Hc Hl Ha Hb Hab. unfold RSI_PERIOD in Hl.
  assert (Lq : length qs = 14%nat).
  { rewrite <- (length_map Fin), <- Hc, length_map. exact Hl. }
  assert (Hj : (S j < 14)%nat).
  { rewrite <- Lq. apply nth_error_Some. congruence. }
  destruct (screen_stock_enough_data t data)
    as (m & _ & _ & _ & _ & E); [unfold RSI_PERIOD; lia|].
  cbv zeta in E.
  destruct (calculate_rsi_defined qs RSI_PERIOD 13 j a b)
    as (r & Hr); try assumption; try (unfold RSI_PERIOD; lia).
  assert (S20 : latest (rolling_mean 20 (map Close data)) = NaN).
  { apply latest_rolling_mean_short. rewrite length_map. lia. }
  assert (S50 : latest (rolling_mean 50 (map Close data)) = NaN).
  { apply latest_rolling_mean_short. rewrite length_map. lia. }
  eexists. exists r. split; [exact E|].
  cbn [rsi sma_20 sma_50 sma_200 reasons].
  split; [|split; [|split; [|split; [|split]]]].
  - rewrite Hc. apply latest_of_nth_error.
    + apply nonempty_length.
      rewrite length_calculate_rsi, length_map. lia.
    + now rewrite length_calculate_rsi, length_map, Lq.
  - exact S20.
  - exact S50.
  - apply latest_rolling_mean_short. rewrite length_map. lia.
  - rewrite scoring_sma20_reason, S20, fgt_nan_r. discriminate.
  - rewrite scoring_sma50_reason, S50, fgt_nan_r. discriminate.
Qed.

(** C7: with at least [RSI_PERIOD] bars the screening returns a result, no
    error; an SMA over a window longer than the series is undefined; and a
    criterion whose comparator is undefined leaves the score and the reasons
    as they were: no point, no reason. *)
Theorem undefined_comparator_not_awarded (t : string) (data : DataFrame) :
  (RSI_PERIOD <= length data)%nat ->
  exists s,
    screen_stock t data = Some s /\
    ((length data < 20)%nat -> sma_20 s = NaN) /\
    ((length data < 50)%nat -> sma_50 s = NaN) /\
    ((length data < 200)%nat -> sma_200 s = NaN) /\
    (sma_20 s = NaN ->
       ~ In PriceAboveSma20 (reasons s) /\
       (score s, reasons s) =
       criterion5 (price s) (sma_50 s)
         (criterion3 (macd s) (signal_line s)
           (criterion2 (histogram s) (criterion1 (rsi s) (0%Z, []))))) /\
    (sma_50 s = NaN ->
       ~ In PriceAboveSma50 (reasons s) /\
       (score s, reasons s) =
       criterion4 (price s) (sma_20 s)
         (criterion3 (macd s) (signal_line s)
           (criterion2 (histogram s) (criterion1 (rsi s) (0%Z, []))))) /\
    (forall p tl, criterion4 p NaN tl = tl /\ criterion5 p NaN tl = tl).
Proof.
  intros Hl.
  destruct (screen_stock_enough_data t data Hl) as (m & _ & _ & _ & _ & E).
  cbv zeta in E. eexists. split; [exact E|].
  cbn [sma_20 sma_50 sma_200 score reasons price rsi macd signal_line
       histogram].
  repeat split.
  - intros H. apply latest_rolling_mean_short. now rewrite length_map.
  - intros H. apply latest_rolling_mean_short. now rewrite length_map.
  - intros H. apply latest_rolling_mean_short. now rewrite length_map.
  - rewrite scoring_sma20_reason, H, fgt_nan_r. discriminate.
  - rewrite H. rewrite <- surjective_pairing. unfold scoring.
    destruct (criterion3 _ _ _) as [sc rs]. reflexivity.
  - rewrite scoring_sma50_reason, H, fgt_nan_r. discriminate.
  - rewrite H. rewrite <- surjective_pairing. unfold scoring.
    destruct (criterion4 _ _ _) as [sc rs]. reflexivity.
  - destruct tl. reflexivity.
  - destruct tl. reflexivity.
Qed.

Lemma undefined_comparator_not_awarded_witness :
  exists s,
    screen_stock "BBCA.JK"%string fourteen_rising_bars = Some s /\
    ((length fourteen_rising_bars < 20)%nat -> sma_20 s = NaN) /\
    ((length fourteen_rising_bars < 50)%nat -> sma_50 s = NaN) /\
    ((length fourteen_rising_bars < 200)%nat -> sma_200 s = NaN) /\
    (sma_20 s = NaN ->
       ~ In PriceAboveSma20 (reasons s) /\
       (score s, reasons s) =
       criterion5 (price s) (sma_50 s)
         (criterion3 (macd s) (signal_line s)
           (criterion2 (histogram s) (criterion1 (rsi s) (0%Z, []))))) /\
    (sma_50 s = NaN ->
       ~ In PriceAboveSma50 (reasons s) /\
       (score s, reasons s) =
       criterion4 (price s) (sma_20 s)
         (criterion3 (macd s) (signal_line s)
           (criterion2 (histogram s) (criterion1 (rsi s) (0%Z, []))))) /\
    (forall p tl, criterion4 p NaN tl = tl /\ criterion5 p NaN tl = tl).
Proof.
  apply (undefined_comparator_not_awarded "BBCA.JK"%string
           fourteen_rising_bars).
  simpl. unfold RSI_PERIOD. lia.
Defined.

(** C10: the latest histogram is the latest MACD line minus the latest
    signal line, so the histogram is positive exactly when the MACD line is
    above the signal line: the two criteria pass together or fail together,
    and together they add 0 or 2 to the score, never 1. *)
Theorem macd_criteria_agree (t : string) (data : DataFrame) :
  (RSI_PERIOD <= length data)%nat ->
  exists s,
    screen_stock t data = Some s /\
    histogram s = fsub (macd s) (signal_line s) /\
    fgt (histogram s) (of_Z 0) = fgt (macd s) (signal_line s) /\
    (In MacdHistogramPositive (reasons s) <->
     In MacdAboveSignal (reasons s)) /\
    (forall tl,
        let tl' := criterion3 (macd s) (signal_line s)
                     (criterion2 (histogram s) tl) in
        fst tl' = fst tl \/ fst tl' = (fst tl + 2)%Z).
Proof.
  intros Hl.
  destruct (screen_stock_enough_data t data Hl) as (m & _ & Lm & Ls & Hh & E).
  cbv zeta in E. eexists. split; [exact E|].
  cbn [histogram macd signal_line reasons].
  assert (H : latest (m_histogram m)
              = fsub (latest (m_macd m)) (latest (m_signal m))).
  { rewrite Hh. apply latest_series_sub; [congruence|].
    apply nonempty_length. unfold RSI_PERIOD in Hl. lia. }
  assert (G : fgt (latest (m_histogram m)) (of_Z 0)
              = fgt (latest (m_macd m)) (latest (m_signal m))).
  { rewrite H. apply fgt_fsub_zero. }
  repeat split; try assumption.
  - rewrite scoring_histogram_reason, scoring_signal_reason. now rewrite G.
  - rewrite scoring_histogram_reason, scoring_signal_reason. now rewrite G.
  - intros [sc rs]. unfold criterion2, criterion3. rewrite G.
    destruct (fgt (latest (m_macd m)) (latest (m_signal m))); cbn [fst];
      [right|left]; lia.
Qed.

Lemma macd_criteria_agree_witness :
  exists s,
    screen_stock "BBCA.JK"%string fourteen_rising_bars = Some s /\
    histogram s = fsub (macd s) (signal_line s) /\
    fgt (histogram s) (of_Z 0) = fgt (macd s) (signal_line s) /\
    (In MacdHistogramPositive (reasons s) <->
     In MacdAboveSignal (reasons s)) /\
    (forall tl,
        let tl' := criterion3 (macd s) (signal_line s)
                     (criterion2 (histogram s) tl) in
        fst tl' = fst tl \/ fst tl' = (fst tl + 2)%Z).
Proof.
  apply (macd_criteria_agree "BBCA.JK"%string fourteen_rising_bars).
  simpl. unfold RSI_PERIOD. lia.
Defined.

(** ** The orchestrator *)

Section SortReverse.
Context {A : Type}.
Variable key : A -> Z.

Lemma insert_reverse_perm (x : A) (l : list A) :
  Permutation (insert_reverse key x l) (x :: l).
Proof.
  induction l as [|y r IH]; simpl; [reflexivity|].
  destruct (key y <=? key x)%Z; [reflexivity|].
  rewrite IH. apply perm_swap.
Qed.

Lemma sort_reverse_perm (l : list A) : Permutation (sort_reverse key l) l.
Proof.
  induction l as [|x l IH]; simpl; [reflexivity|].
  rewrite insert_reverse_perm. now constructor.
Qed.

Lemma insert_reverse_sorted (x : A) (l : list A) :
  StronglySorted (fun a b => (key b <= key a)%Z) l ->
  StronglySorted (fun a b => (key b <= key a)%Z) (insert_reverse key x l).
Proof.
  induction 1 as [|y r Hr IH Hy]; simpl.
  - repeat constructor.
  - destruct (Z.leb_spec (key y) (key x)) as [Hle|Hgt].
    + constructor; [now constructor|].
      constructor; [assumption|].
      eapply Forall_impl; [|exact Hy]. simpl. intros b Hb. lia.
    + constructor; [assumption|].
      rewrite (insert_reverse_perm x r). constructor; [lia|assumption].
Qed.

Lemma sort_reverse_sorted (l : list A) :
  StronglySorted (fun a b => (key b <= key a)%Z) (sort_reverse key l).
Proof.
  induction l as [|x l IH]; simpl; [constructor|].
  now apply insert_reverse_sorted.
Qed.

(** Inserting an element leaves the order of the elements of each key as
    it was, the new element coming first among its equals. *)
Lemma insert_reverse_filter (k : Z) (x : A) (l : list A) :
  filter (fun a => (key a =? k)%Z) (insert_reverse key x l) =
  filter (fun a => (key a =? k)%Z) (x :: l).
Proof.
  induction l as [|y r IH]; [reflexivity|].
  cbn [insert_reverse].
  destruct (Z.leb_spec (key y) (key x)) as [Hle|Hgt]; [reflexivity|].
  cbn [filter] in IH |- *. rewrite IH.
  destruct (Z.eqb_spec (key x) k), (Z.eqb_spec (key y) k);
    try reflexivity. lia.
Qed.

Lemma sort_reverse_stable (k : Z) (l : list A) :
  filter (fun a => (key a =? k)%Z) (sort_reverse key l) =
  filter (fun a => (key a =? k)%Z) l.
Proof.
  induction l as [|x l IH]; [reflexivity|].
  cbn [sort_reverse fold_right].
  change (fold_right (insert_reverse key) [] l) with (sort_reverse key l).
  rewrite insert_reverse_filter. cbn [filter]. now rewrite IH.
Qed.
End SortReverse.

Section Loop.
Variable download : string -> result DataFrame.

Lemma screen_each_app (a b : list string) :
  forall results,
    screen_each download (a ++ b) results =
    (fst (screen_each download b (fst (screen_each download a results))),
     snd (screen_each download a results)
       ++ snd (screen_each download b
                 (fst (screen_each download a results)))).
Proof.
  induction a as [|t a IH]; intros results.
  - simpl. now destruct (screen_each download b results).
  - cbn [app screen_each].
    destruct (fetch_stock_data download t) as [data|].
    + destruct (screen_stock t data) as [sg|].
      * rewrite IH. now destruct (screen_each download a (results ++ [sg])).
      * rewrite IH. now destruct (screen_each download a results).
    + rewrite IH. now destruct (screen_each download a results).
Qed.

(** The loop prints one outcome per ticker, in the order of the list. *)
Lemma screen_each_printed (tickers : list string) :
  forall results,
    map fst (snd (screen_each download tickers results)) = tickers.
Proof.
  induction tickers as [|t ts IH]; intros results; [reflexivity|].
  cbn [screen_each].
  destruct (fetch_stock_data download t) as [data|].
  - destruct (screen_stock t data) as [sg|].
    + specialize (IH (results ++ [sg])).
      destruct (screen_each download ts (results ++ [sg])).
      simpl in *. now rewrite IH.
    + specialize (IH results). destruct (screen_each download ts results).
      simpl in *. now rewrite IH.
  - specialize (IH results). destruct (screen_each download ts results).
    simpl in *. now rewrite IH.
Qed.

(** A ticker whose series is too short leaves [results] untouched and is
    printed as a failure. *)
Lemma screen_each_short (t : string) (data : DataFrame) (rest : list string) :
  download t = Ok data -> (length data < RSI_PERIOD)%nat ->
  forall results,
    screen_each download (t :: rest) results =
    (fst (screen_each download rest results),
     (t, if (length data =? 0)%nat then FAILED_TO_FETCH_DATA
         else FAILED_TO_SCREEN)
       :: snd (screen_each download rest results)).
Proof.
  intros Hd Hl results. cbn [screen_each]. unfold fetch_stock_data.
  rewrite Hd. destruct (length data =? 0)%nat.
  - now destruct (screen_each download rest results).
  - rewrite screen_stock_too_few by assumption.
    now destruct (screen_each download rest results).
Qed.
End Loop.

(** C8: a series of fewer than [RSI_PERIOD] bars gets no screening result;
    the orchestrator prints a failure for that ticker, adds nothing to the
    results, and goes on: every ticker of the list is processed, and the
    results are those of the run without the failing ticker. *)
Theorem insufficient_history_skipped
    (download : string -> result DataFrame)
    (before after : list string) (t : string) (data : DataFrame) :
  download t = Ok data -> (length data < RSI_PERIOD)%nat ->
  screen_stock t data = None /\
  (forall results,
      fst (screen_each download (before ++ t :: after) results) =
      fst (screen_each download (before ++ after) results) /\
      In (t, if (length data =? 0)%nat then FAILED_TO_FETCH_DATA
             else FAILED_TO_SCREEN)
         (snd (screen_each download (before ++ t :: after) results)) /\
      map fst (snd (screen_each download (before ++ t :: after) results)) =
      before ++ t :: after) /\
  fst (run_screener_on download (before ++ t :: after)) =
  fst (run_screener_on download (before ++ after)).
Proof.
  intros Hd Hl.
  assert (R : forall results,
             fst (screen_each download (before ++ t :: after) results) =
             fst (screen_each download (before ++ after) results)).
  { intros results. rewrite !screen_each_app.
    rewrite (screen_each_short download t data after Hd Hl). reflexivity. }
  split; [now apply screen_stock_too_few|]. split.
  - intros results. split; [apply R|]. split.
    + rewrite screen_each_app.
      rewrite (screen_each_short download t data after Hd Hl).
      cbn [snd]. apply in_or_app. right. now left.
    + apply screen_each_printed.
  - unfold run_screener_on. specialize (R []).
    destruct (screen_each download (before ++ t :: after) []).
    destruct (screen_each download (before ++ after) []).
    simpl in *. now rewrite R.
Qed.

Lemma insufficient_history_skipped_witness :
  screen_stock "PGAS.JK"%string (firstn 5 fourteen_rising_bars) = None /\
  (forall results,
      fst (screen_each short_history_source
             ["BBCA.JK"; "PGAS.JK"; "ADRO.JK"]%string results) =
      fst (screen_each short_history_source
             ["BBCA.JK"; "ADRO.JK"]%string results) /\
      In ("PGAS.JK"%string,
          if (length (firstn 5 fourteen_rising_bars) =? 0)%nat
          then FAILED_TO_FETCH_DATA else FAILED_TO_SCREEN)
         (snd (screen_each short_history_source
                 ["BBCA.JK"; "PGAS.JK"; "ADRO.JK"]%string results)) /\
      map fst (snd (screen_each short_history_source
                      ["BBCA.JK"; "PGAS.JK"; "ADRO.JK"]%string results)) =
      ["BBCA.JK"; "PGAS.JK"; "ADRO.JK"]%string) /\
  fst (run_screener_on short_history_source
         ["BBCA.JK"; "PGAS.JK"; "ADRO.JK"]%string) =
  fst (run_screener_on short_history_source
         ["BBCA.JK"; "ADRO.JK"]%string).
Proof.
  apply (insufficient_history_skipped short_history_source
           ["BBCA.JK"%string] ["ADRO.JK"%string] "PGAS.JK"%string
           (firstn 5 fourteen_rising_bars)).
  - reflexivity.
  - simpl. unfold RSI_PERIOD. lia.
Defined.

(** C9: the displayed results are the screened ones sorted by score, highest
    first, results of equal score keeping their original relative order; the
    scores 3, 5, 3, 4, 5 of A, B, C, D, E give the order B, E, D, A, C. *)
Theorem final_ordering_stable :
  (forall download tickers,
      fst (run_screener_on download tickers) =
      sort_reverse score (fst (screen_each download tickers []))) /\
  (forall results : list signals,
      StronglySorted (fun a b => (score b <= score a)%Z)
        (sort_reverse score results) /\
      Permutation (sort_reverse score results) results /\
      forall k,
        filter (fun r => (score r =? k)%Z) (sort_reverse score results) =
        filter (fun r => (score r =? k)%Z) results) /\
  map ticker
    (sort_reverse score
       [result_with "A" 3; result_with "B" 5; result_with "C" 3;
        result_with "D" 4; result_with "E" 5]%string) =
  ["B"; "E"; "D"; "A"; "C"]%string.
Proof.
  split; [|split].
  - intros download tickers. unfold run_screener_on.
    now destruct (screen_each download tickers []).
  - intros results. split; [apply sort_reverse_sorted|].
    split; [apply sort_reverse_perm|]. intros k. apply sort_reverse_stable.
  - reflexivity.
Qed.

(* ------------------------------------------------------------------ *)
(** * Further properties of the code *)

(** ** More on the RSI *)

Lemma calc_mean_nonneg_or_nan (w : nat) (win : Series) :
  Forall nonneg win ->
  calc_mean w win = NaN \/ exists G, calc_mean w win = Fin G /\ 0 <= G.
Proof.
  intros Hn. destruct (observations_nonneg win Hn) as (_ & Hp & _).
  unfold calc_mean.
  destruct (w <=? length (observations win))%nat; [|now left].
  destruct (Nat.ltb_spec 0 (length (observations win))) as [Hpos|_];
    [|now left].
  right. eexists. split; [reflexivity|]. rewrite Qred_correct.
  apply Qle_shift_div_l.
  - change 0 with (inject_Z 0). rewrite <- Zlt_Qlt. lia.
  - pose proof (Qsum_nonneg _ Hp). lra.
Qed.

Lemma rsi_value_range (G L : Q) :
  0 <= G -> 0 <= L ->
  rsi_value (Fin G) (Fin L) = NaN \/
  exists r, rsi_value (Fin G) (Fin L) = Fin r /\ 0 <= r <= 100.
Proof.
  intros HG HL. destruct (Qeq_dec L 0) as [EL|NL].
  - destruct (Qeq_dec G 0) as [EG|NG].
    + left. apply rsi_value_nan. now apply fdiv_zero_zero.
    + right. exists 100. split; [|lra].
      apply rsi_value_saturates. left. apply fdiv_pos_zero; [lra|assumption].
  - right. assert (HLpos : 0 < L) by lra.
    assert (Hrs : 0 <= G / L) by (apply Qle_shift_div_l; lra).
    assert (Z1 : Qzerob L = false).
    { apply Bool.not_true_iff_false. now rewrite Qzerob_iff. }
    assert (Z2 : Qzerob (Qred (1 + Qred (G / L))) = false).
    { apply Bool.not_true_iff_false. rewrite Qzerob_iff, !Qred_correct. lra. }
    unfold rsi_value. cbn [fdiv]. rewrite Z1. cbn [fadd fdiv]. rewrite Z2.
    cbn [fsub]. eexists. split; [reflexivity|].
    rewrite !Qred_correct.
    assert (H1 : 0 <= 100 / (1 + G / L)) by (apply Qle_shift_div_l; lra).
    assert (H2 : 100 / (1 + G / L) <= 100) by (apply Qle_shift_div_r; lra).
    lra.
Qed.




(** X1: on finite prices the RSI is, wherever it is defined, a number
    between 0 and 100. *)
Theorem rsi_between_0_and_100 (qs : list Q) (period i : nat) (v : float) :
  at_index (calculate_rsi (map Fin qs) period) i v ->
  v = NaN \/ exists r, v = Fin r /\ 0 <= r <= 100.
Proof.
  unfold at_index. intros H.
  assert (Hi : (i < length qs)%nat).
  { rewrite <- (length_map Fin), <- (length_calculate_rsi _ period).
    apply nth_error_Some. congruence. }
  rewrite nth_error_calculate_rsi, rsi_gain_eq, rsi_loss_eq in H.
  set (gs := map (fun d => if fgt d (Fin 0) then d else Fin 0)
               (diff (map Fin qs))) in *.
  set (ls := map fneg (map (fun d => if flt d (Fin 0) then d else Fin 0)
                         (diff (map Fin qs)))) in *.
  rewrite !nth_error_rolling_mean in H
    by (unfold gs, ls; now rewrite ?length_map, length_diff, length_map).
  assert (E : v = rsi_value (calc_mean period (window_at period i gs))
                            (calc_mean period (window_at period i ls)))
    by congruence.
  rewrite E. clear E H.
  destruct (calc_mean_nonneg_or_nan period (window_at period i gs))
    as [-> | (G & -> & HG)];
    [apply Forall_skipn, Forall_firstn, gains_nonneg | now left |].
  destruct (calc_mean_nonneg_or_nan period (window_at period i ls))
    as [-> | (L & -> & HL)];
    [apply Forall_skipn, Forall_firstn, losses_nonneg | now left |].
  now apply rsi_value_range.
Qed.

Lemma rsi_between_0_and_100_witness :
  Fin (200 # 3) = NaN \/ exists r, Fin (200 # 3) = Fin r /\ 0 <= r <= 100.
Proof.
  apply (rsi_between_0_and_100 [1; 3; 2] 3 2 (Fin (200 # 3))). reflexivity.
Defined.












Lemma diff_from_shift (k p : Q) (qs : list Q) :
  diff_from (Fin (k + p)) (map Fin (map (Qplus k) qs)) =
  diff_from (Fin p) (map Fin qs).
Proof.
  revert p. induction qs as [|x qs IH]; intros p; [reflexivity|].
  cbn [map diff_from fsub]. rewrite IH. f_equal. f_equal.
  apply Qred_complete. ring.
Qed.

(** X5: the RSI only sees price changes: adding the same amount to every
    price leaves the whole RSI series unchanged. *)
Theorem rsi_shift_invariant (k : Q) (qs : list Q) (period : nat) :
  calculate_rsi (map Fin (map (Qplus k) qs)) period =
  calculate_rsi (map Fin qs) period.
Proof.
  assert (E : diff (map Fin (map (Qplus k) qs)) = diff (map Fin qs)).
  { destruct qs as [|x qs]; [reflexivity|].
    cbn [map diff]. now rewrite diff_from_shift. }
  unfold calculate_rsi, rsi_gain, rsi_loss. cbv zeta. now rewrite E.
Qed.

(** ** More on the rolling mean *)





(** ** More on the exponential mean *)




(** ** More on the MACD *)

Lemma nth_error_series_sub (a b : Series) (i : nat) :
  nth_error (series_sub a b) i =
  match nth_error a i, nth_error b i with
  | Some x, Some y => Some (fsub x y)
  | _, _ => None
  end.
Proof.
  unfold series_sub. rewrite nth_error_map, nth_error_combine.
  destruct (nth_error a i), (nth_error b i); reflexivity.
Qed.

(** X8: [calculate_macd] raises [ValueError] as soon as one of its spans is
    below one; otherwise it returns three series as long as the prices, the
    histogram being the MACD line minus the signal line at every position. *)
Theorem calculate_macd_aligned (prices : Series) (fast slow signal : Z) :
  ((fast < 1)%Z \/ (slow < 1)%Z \/ (signal < 1)%Z ->
   calculate_macd prices fast slow signal = Raise ValueError) /\
  ((1 <= fast)%Z /\ (1 <= slow)%Z /\ (1 <= signal)%Z ->
   exists m,
     calculate_macd prices fast slow signal = Ok m /\
     length (m_macd m) = length prices /\
     length (m_signal m) = length prices /\
     length (m_histogram m) = length prices /\
     forall i x y,
       nth_error (m_macd m) i = Some x -> nth_error (m_signal m) i = Some y ->
       nth_error (m_histogram m) i = Some (fsub x y)).
Proof.
  split.
  - intros H. unfold calculate_macd.
    destruct (Z.lt_ge_cases fast 1) as [Hf|Hf];
      [now rewrite ewm_mean_small_span|].
    destruct (ewm_mean_ok fast prices) as (ef & -> & _); [lia|]. cbn [bind].
    destruct (Z.lt_ge_cases slow 1) as [Hs|Hs];
      [now rewrite ewm_mean_small_span|].
    destruct (ewm_mean_ok slow prices) as (es & -> & _); [lia|]. cbn [bind].
    rewrite ewm_mean_small_span by lia. reflexivity.
  - intros (Hf & Hs & Hg).
    destruct (calculate_macd_ok prices fast slow signal Hf Hs Hg)
      as (m & E & Lm & Ls & Hh).
    exists m. split; [assumption|]. split; [assumption|].
    split; [assumption|]. split.
    + rewrite Hh. unfold series_sub. rewrite length_map, length_combine. lia.
    + intros i x y Hx Hy. now rewrite Hh, nth_error_series_sub, Hx, Hy.
Qed.

Lemma ewm_loop_constant (f : Q) (c : Q) (m : nat) :
  forall (ow : Q) (n : nat),
    ewm_loop f 1 1 (Fin c) ow n (repeat (Fin c) m) = repeat (Fin c) m.
Proof.
  induction m as [|m IH]; intros ow n; [reflexivity|].
  cbn [repeat ewm_loop]. unfold is_observation, fne. cbn [feqb].
  rewrite !Qeq_bool_refl. cbn [negb].
  replace (1 <=? n + 1)%nat with true by (symmetry; apply Nat.leb_le; lia).
  now rewrite IH.
Qed.

(** The exponential mean of a constant series is that constant. *)
Lemma ewm_values_constant (com c : Q) (n : nat) :
  ewm_values com (repeat (Fin c) n) = repeat (Fin c) n.
Proof.
  destruct n as [|m]; [reflexivity|].
  unfold ewm_values. cbn [repeat]. unfold is_observation at 1 2.
  cbn [feqb]. rewrite Qeq_bool_refl. cbn [Nat.leb].
  now rewrite ewm_loop_constant.
Qed.

Lemma series_sub_constant (a b : Q) (n : nat) :
  series_sub (repeat (Fin a) n) (repeat (Fin b) n)
  = repeat (Fin (Qred (a - b))) n.
Proof.
  unfold series_sub. induction n as [|n IH]; [reflexivity|].
  cbn [repeat combine map fst snd fsub]. now rewrite IH.
Qed.

Lemma calculate_macd_flat (c : Q) (n : nat) (fast slow signal : Z) :
  (1 <= fast)%Z -> (1 <= slow)%Z -> (1 <= signal)%Z ->
  calculate_macd (repeat (Fin c) n) fast slow signal =
  Ok {| m_macd := repeat (Fin 0) n;
        m_signal := repeat (Fin 0) n;
        m_histogram := repeat (Fin 0) n |}.
Proof.
  intros Hf Hs Hg. unfold calculate_macd, ewm_mean, get_center_of_mass.
  destruct (Z.ltb_spec fast 1) as [?|_]; [lia|].
  destruct (Z.ltb_spec slow 1) as [?|_]; [lia|].
  destruct (Z.ltb_spec signal 1) as [?|_]; [lia|].
  cbn [bind]. rewrite !ewm_values_constant, series_sub_constant.
  replace (Qred (c - c)) with 0
    by (change 0 with (Qred 0); apply Qred_complete; ring).
  rewrite ewm_values_constant, series_sub_constant. reflexivity.
Qed.

(** X9: on a flat market the MACD says nothing: for constant prices the
    MACD line, the signal line and the histogram are zero at every
    position. *)
Theorem macd_flat_prices_zero (c : Q) (n : nat) (fast slow signal : Z) :
  (1 <= fast)%Z -> (1 <= slow)%Z -> (1 <= signal)%Z ->
  calculate_macd (repeat (Fin c) n) fast slow signal =
  Ok {| m_macd := repeat (Fin 0) n;
        m_signal := repeat (Fin 0) n;
        m_histogram := repeat (Fin 0) n |}.
Proof. apply calculate_macd_flat. Qed.

Lemma macd_flat_prices_zero_witness :
  calculate_macd (repeat (Fin 100) 30) MACD_FAST MACD_SLOW MACD_SIGNAL =
  Ok {| m_macd := repeat (Fin 0) 30;
        m_signal := repeat (Fin 0) 30;
        m_histogram := repeat (Fin 0) 30 |}.
Proof.
  apply (macd_flat_prices_zero 100 30 MACD_FAST MACD_SLOW MACD_SIGNAL);
    unfold MACD_FAST, MACD_SLOW, MACD_SIGNAL; lia.
Defined.

(** X10: there is no warm-up gap and the first MACD value carries no
    signal: when the first price is a number, the MACD line, the signal
    line and the histogram are all zero at index 0. *)
Theorem macd_starts_at_zero (x0 : Q) (rest : Series) (fast slow signal : Z) :
  (1 <= fast)%Z -> (1 <= slow)%Z -> (1 <= signal)%Z ->
  exists m,
    calculate_macd (Fin x0 :: rest) fast slow signal = Ok m /\
    at_index (m_macd m) 0 (Fin 0) /\
    at_index (m_signal m) 0 (Fin 0) /\
    at_index (m_histogram m) 0 (Fin 0).
Proof.
  intros Hf Hs Hg. unfold calculate_macd, ewm_mean, get_center_of_mass.
  destruct (Z.ltb_spec fast 1) as [?|_]; [lia|].
  destruct (Z.ltb_spec slow 1) as [?|_]; [lia|].
  destruct (Z.ltb_spec signal 1) as [?|_]; [lia|].
  cbn [bind]. eexists. split; [reflexivity|].
  cbn [m_macd m_signal m_histogram]. unfold at_index.
  assert (E0 : forall com x tl0,
             exists tl, ewm_values com (Fin x :: tl0) = Fin x :: tl).
  { intros com x tl0. unfold ewm_values. unfold is_observation at 1 2.
    cbn [feqb]. rewrite Qeq_bool_refl. cbn [Nat.leb]. eexists. reflexivity. }
  destruct (E0 ((inject_Z fast - 1) / 2) x0 rest) as (tf & ->).
  destruct (E0 ((inject_Z slow - 1) / 2) x0 rest) as (ts & ->).
  assert (S1 : series_sub (Fin x0 :: tf) (Fin x0 :: ts)
               = Fin 0 :: series_sub tf ts).
  { unfold series_sub. cbn [combine map fst snd fsub]. do 2 f_equal.
    change 0 with (Qred 0). apply Qred_complete. ring. }
  rewrite !S1.
  destruct (E0 ((inject_Z signal - 1) / 2) 0 (series_sub tf ts)) as (tg & ->).
  split; [reflexivity|]. split; reflexivity.
Qed.

Lemma macd_starts_at_zero_witness :
  exists m,
    calculate_macd (Fin 7 :: [Fin 9; NaN]) 12 26 9 = Ok m /\
    at_index (m_macd m) 0 (Fin 0) /\
    at_index (m_signal m) 0 (Fin 0) /\
    at_index (m_histogram m) 0 (Fin 0).
Proof. apply (macd_starts_at_zero 7 [Fin 9; NaN] 12 26 9); lia. Defined.

(** ** More on the screening of one stock *)

Lemma latest_repeat (x : float) (n : nat) :
  (0 < n)%nat -> latest (repeat x n) = x.
Proof.
  intros Hn. destruct n as [|m]; [lia|]. unfold latest.
  replace (repeat x (S m)) with (repeat x m ++ [x]).
  - apply last_last.
  - clear Hn. induction m as [|m IH]; [reflexivity|].
    cbn [repeat app] in *. now rewrite IH.
Qed.

Lemma latest_rolling_mean (w : nat) (s : Series) :
  s <> [] ->
  latest (rolling_mean w s) = calc_mean w (window_at w (length s - 1) s).
Proof.
  intros Hs.
  assert (Hpos : (0 < length s)%nat) by (destruct s; simpl; [congruence|lia]).
  apply latest_of_nth_error.
  - apply nonempty_length. now rewrite length_rolling_mean.
  - rewrite length_rolling_mean. apply nth_error_rolling_mean. lia.
Qed.

Lemma Qsum_constant (c : Q) (l : list Q) :
  Forall (fun q => q == c) l ->
  Qsum l == c * inject_Z (Z.of_nat (length l)).
Proof.
  induction 1 as [|q l Hq _ IH].
  - simpl. ring.
  - cbn [Qsum fold_right length]. fold (Qsum l).
    rewrite Hq, IH, Nat2Z.inj_succ. unfold Z.succ.
    rewrite inject_Z_plus. ring.
Qed.

Lemma observations_constant (c : Q) (win : Series) :
  Forall (fun x => x = Fin c) win ->
  Forall (fun q => q == c) (observations win).
Proof.
  unfold observations.
  induction 1 as [|x win Hx _ IH]; simpl; [constructor|].
  subst x. simpl. constructor; [reflexivity|assumption].
Qed.

(** The mean of a window of equal values is missing or that value. *)
Lemma calc_mean_constant (c : Q) (minp : nat) (win : Series) :
  Forall (fun x => x = Fin c) win ->
  calc_mean minp win = NaN \/
  exists m, calc_mean minp win = Fin m /\ m == c.
Proof.
  intros H. unfold calc_mean.
  destruct (minp <=? length (observations win))%nat; [|now left].
  destruct (Nat.ltb_spec 0 (length (observations win))) as [Hpos|_];
    [|now left].
  right. eexists. split; [reflexivity|].
  rewrite Qred_correct, (Qsum_constant c _ (observations_constant c _ H)).
  field. intros E.
  assert (Hk : 0 < inject_Z (Z.of_nat (length (observations win)))).
  { change 0 with (inject_Z 0). rewrite <- Zlt_Qlt. lia. }
  rewrite E in Hk. now apply Qlt_irrefl in Hk.
Qed.

Lemma price_not_above_flat_sma (c : Q) (w n : nat) :
  fgt (Fin c) (latest (rolling_mean w (repeat (Fin c) n))) = false.
Proof.
  destruct n as [|n]; [reflexivity|].
  rewrite latest_rolling_mean by discriminate.
  destruct (calc_mean_constant c w
              (window_at w (length (repeat (Fin c) (S n)) - 1)
                 (repeat (Fin c) (S n))))
    as [-> | (m & -> & Hm)].
  - unfold window_at. apply Forall_skipn, Forall_firstn.
    apply Forall_forall. intros x Hx. now apply repeat_spec in Hx.
  - reflexivity.
  - unfold fgt, flt. apply Qltb_false_iff. lra.
Qed.

(** X11: a flat series never passes any rule: for at least [RSI_PERIOD]
    bars with the same close the screening returns a result with score 0
    and no reason, an undefined RSI and a MACD line, signal line and
    histogram all zero. *)
Theorem screen_flat_series_scores_zero
    (t : string) (c : Q) (v : float) (n : nat) :
  (RSI_PERIOD <= n)%nat ->
  exists s,
    screen_stock t (flat_bars c v n) = Some s /\
    score s = 0%Z /\ reasons s = [] /\
    price s = Fin c /\ rsi s = NaN /\
    macd s = Fin 0 /\ signal_line s = Fin 0 /\ histogram s = Fin 0.
Proof.
  intros Hn. unfold RSI_PERIOD in Hn.
  assert (L : length (flat_bars c v n) = n) by apply repeat_length.
  assert (C : map Close (flat_bars c v n) = repeat (Fin c) n).
  { unfold flat_bars. now rewrite map_repeat. }
  destruct (screen_stock_enough_data t (flat_bars c v n))
    as (m & Hm & _ & _ & _ & E); [rewrite L; unfold RSI_PERIOD; lia|].
  cbv zeta in E. rewrite C in Hm, E.
  rewrite calculate_macd_flat in Hm
    by (unfold MACD_FAST, MACD_SLOW, MACD_SIGNAL; lia).
  injection Hm as <-. cbn [m_macd m_signal m_histogram] in E.
  rewrite !(latest_repeat (Fin 0)) in E by lia.
  rewrite (latest_repeat (Fin c)) in E by lia.
  assert (R : latest (calculate_rsi (repeat (Fin c) n) RSI_PERIOD) = NaN).
  { apply latest_of_nth_error.
    - apply nonempty_length. rewrite length_calculate_rsi, repeat_length. lia.
    - rewrite length_calculate_rsi, repeat_length.
      apply calculate_rsi_constant. lia. }
  rewrite R in E.
  assert (Sc : scoring (Fin c) NaN (Fin 0) (Fin 0) (Fin 0)
                 (latest (rolling_mean 20 (repeat (Fin c) n)))
                 (latest (rolling_mean 50 (repeat (Fin c) n)))
               = (0%Z, [])).
  { unfold scoring, criterion1, criterion2, criterion3, criterion4,
      criterion5. cbn [flt andb].
    replace (fgt (Fin 0) (of_Z 0)) with false by reflexivity.
    replace (fgt (Fin 0) (Fin 0)) with false by reflexivity.
    now rewrite !price_not_above_flat_sma. }
  rewrite Sc in E. cbn [fst snd] in E.
  eexists. split; [exact E|]. cbn.
  repeat (split; [reflexivity|]). reflexivity.
Qed.

Lemma screen_flat_series_scores_zero_witness :
  exists s,
    screen_stock "BBCA.JK"%string (flat_bars 100 (Fin 1000) 60) = Some s /\
    score s = 0%Z /\ reasons s = [] /\
    price s = Fin 100 /\ rsi s = NaN /\
    macd s = Fin 0 /\ signal_line s = Fin 0 /\ histogram s = Fin 0.
Proof.
  apply (screen_flat_series_scores_zero "BBCA.JK"%string 100 (Fin 1000) 60).
  unfold RSI_PERIOD. lia.
Defined.





(** ** More on the orchestrator *)

Section MoreLoop.
Variable download : string -> result DataFrame.

Lemma screen_each_unavailable (t : string) (rest : list string) :
  fetch_stock_data download t = None ->
  forall results,
    screen_each download (t :: rest) results =
    (fst (screen_each download rest results),
     (t, FAILED_TO_FETCH_DATA) :: snd (screen_each download rest results)).
Proof.
  intros Hf results. cbn [screen_each]. rewrite Hf.
  now destruct (screen_each download rest results).
Qed.

(** The loop only appends: what [results] held stays in front, and what is
    printed does not depend on it. *)
Lemma screen_each_appends (tickers : list string) :
  forall results,
    fst (screen_each download tickers results)
    = results ++ fst (screen_each download tickers []) /\
    snd (screen_each download tickers results)
    = snd (screen_each download tickers []).
Proof.
  induction tickers as [|t ts IH]; intros results.
  - simpl. now rewrite app_nil_r.
  - cbn [screen_each].
    destruct (fetch_stock_data download t) as [data|].
    + destruct (screen_stock t data) as [sg|].
      * destruct (IH (results ++ [sg])) as [F1 S1].
        destruct (IH ([] ++ [sg])) as [F2 S2].
        destruct (screen_each download ts (results ++ [sg])).
        destruct (screen_each download ts ([] ++ [sg])).
        cbn [fst snd] in *. subst. split; [|reflexivity].
        now rewrite <- app_assoc.
      * destruct (IH results) as [F1 S1].
        destruct (screen_each download ts results).
        destruct (screen_each download ts []).
        cbn [fst snd] in *. now subst.
    + destruct (IH results) as [F1 S1].
      destruct (screen_each download ts results).
      destruct (screen_each download ts []).
      cbn [fst snd] in *. now subst.
Qed.

Lemma screen_stock_ticker (t : string) (data : DataFrame) (s : signals) :
  screen_stock t data = Some s -> ticker s = t.
Proof.
  intros H.
  destruct (Nat.lt_ge_cases (length data) RSI_PERIOD) as [Hl|Hl].
  { rewrite screen_stock_too_few in H by assumption. discriminate. }
  destruct (screen_stock_enough_data t data Hl) as (m & _ & _ & _ & _ & E).
  cbv zeta in E. rewrite E in H. now injection H as <-.
Qed.

Lemma screen_each_tickers (tickers : list string) :
  forall results,
    map ticker (fst (screen_each download tickers results))
    = map ticker results
      ++ map fst (filter (fun p => is_ok (snd p))
                    (snd (screen_each download tickers results))) /\
    (length (fst (screen_each download tickers results))
     + length (filter (fun p => negb (is_ok (snd p)))
                 (snd (screen_each download tickers results)))
     = length results + length tickers)%nat.
Proof.
  induction tickers as [|t ts IH]; intros results.
  - simpl. rewrite app_nil_r. split; [reflexivity|lia].
  - cbn [screen_each].
    destruct (fetch_stock_data download t) as [data|].
    + destruct (screen_stock t data) as [sg|] eqn:Es.
      * destruct (IH (results ++ [sg])) as [F1 C1].
        destruct (screen_each download ts (results ++ [sg])).
        cbn [fst snd filter is_ok negb map] in *. split.
        -- rewrite F1, map_app, <- app_assoc. cbn [map app].
           now rewrite (screen_stock_ticker t data sg Es).
        -- rewrite C1, length_app. simpl. lia.
      * destruct (IH results) as [F1 C1].
        destruct (screen_each download ts results).
        cbn [fst snd filter is_ok negb map length] in *.
        split; [assumption|lia].
    + destruct (IH results) as [F1 C1].
      destruct (screen_each download ts results).
      cbn [fst snd filter is_ok negb map length] in *.
      split; [assumption|lia].
Qed.
End MoreLoop.

(** X14: a ticker whose download raises, or returns no row, is fetched as
    [None]; the loop prints FAILED TO FETCH DATA for it, adds nothing to the
    results, and goes on with the tickers that follow. *)
Theorem unavailable_data_skipped
    (download : string -> result DataFrame)
    (before after : list string) (t : string) :
  (exists e, download t = Raise e) \/ download t = Ok [] ->
  fetch_stock_data download t = None /\
  (forall results,
      fst (screen_each download (before ++ t :: after) results) =
      fst (screen_each download (before ++ after) results) /\
      In (t, FAILED_TO_FETCH_DATA)
         (snd (screen_each download (before ++ t :: after) results))) /\
  fst (run_screener_on download (before ++ t :: after)) =
  fst (run_screener_on download (before ++ after)).
Proof.
  intros H.
  assert (Hf : fetch_stock_data download t = None).
  { unfold fetch_stock_data. destruct H as [(e & ->) | ->]; reflexivity. }
  assert (R : forall results,
             fst (screen_each download (before ++ t :: after) results) =
             fst (screen_each download (before ++ after) results)).
  { intros results. rewrite !screen_each_app.
    now rewrite (screen_each_unavailable download t after Hf). }
  split; [assumption|]. split.
  - intros results. split; [apply R|].
    rewrite screen_each_app.
    rewrite (screen_each_unavailable download t after Hf).
    cbn [snd]. apply in_or_app. right. now left.
  - unfold run_screener_on. specialize (R []).
    destruct (screen_each download (before ++ t :: after) []).
    destruct (screen_each download (before ++ after) []).
    simpl in *. now rewrite R.
Qed.

Lemma unavailable_data_skipped_witness :
  fetch_stock_data unavailable_source "PGAS.JK"%string = None /\
  (forall results,
      fst (screen_each unavailable_source
             ["BBCA.JK"; "PGAS.JK"; "ADRO.JK"]%string results) =
      fst (screen_each unavailable_source
             ["BBCA.JK"; "ADRO.JK"]%string results) /\
      In ("PGAS.JK"%string, FAILED_TO_FETCH_DATA)
         (snd (screen_each unavailable_source
                 ["BBCA.JK"; "PGAS.JK"; "ADRO.JK"]%string results))) /\
  fst (run_screener_on unavailable_source
         ["BBCA.JK"; "PGAS.JK"; "ADRO.JK"]%string) =
  fst (run_screener_on unavailable_source
         ["BBCA.JK"; "ADRO.JK"]%string).
Proof.
  apply (unavailable_data_skipped unavailable_source
           ["BBCA.JK"%string] ["ADRO.JK"%string] "PGAS.JK"%string).
  left. exists ValueError. reflexivity.
Defined.

(** X15: the loop only appends to [results]: whatever the list held before
    stays in front, in order, and the outcomes printed do not depend on
    it. *)
Theorem screen_each_only_appends
    (download : string -> result DataFrame) (tickers : list string)
    (results : list signals) :
  fst (screen_each download tickers results)
  = results ++ fst (screen_each download tickers []) /\
  snd (screen_each download tickers results)
  = snd (screen_each download tickers []).
Proof. apply screen_each_appends. Qed.

(** X16: every ticker ends as a result or as a printed failure, never
    both and never neither: the results, before sorting, are those of the
    tickers printed OK, in the order of the list and each under its own
    ticker; results and failures together are as many as the tickers; and
    every displayed result belongs to a ticker of the list. *)
Theorem results_account_for_tickers
    (download : string -> result DataFrame) (tickers : list string) :
  map ticker (fst (screen_each download tickers []))
  = map fst (filter (fun p => is_ok (snd p))
               (snd (screen_each download tickers []))) /\
  (length (fst (screen_each download tickers []))
   + length (filter (fun p => negb (is_ok (snd p)))
               (snd (screen_each download tickers [])))
   = length tickers)%nat /\
  (forall r, In r (fst (run_screener_on download tickers)) ->
             In (ticker r) tickers).
Proof.
  destruct (screen_each_tickers download tickers []) as [F C].
  split; [exact F|]. split; [exact C|].
  intros r Hr.
  assert (Hin : In r (fst (screen_each download tickers []))).
  { unfold run_screener_on in Hr.
    destruct (screen_each download tickers []) as [rs pr]. cbn [fst] in *.
    eapply Permutation_in; [apply sort_reverse_perm|exact Hr]. }
  apply (in_map ticker) in Hin. rewrite F in Hin.
  apply in_map_iff in Hin. destruct Hin as (p & <- & Hp).
  apply filter_In in Hp. destruct Hp as [Hp _].
  rewrite <- (screen_each_printed download tickers []).
  now apply in_map.
Qed.

Lemma filter_sorted_prefix {A : Type} (key : A -> Z) (c : Z) (l : list A) :
  StronglySorted (fun a b => (key b <= key a)%Z) l ->
  filter (fun r => (c <=? key r)%Z) l
  = firstn (length (filter (fun r => (c <=? key r)%Z) l)) l /\
  Forall (fun r => (key r < c)%Z)
    (skipn (length (filter (fun r => (c <=? key r)%Z) l)) l).
Proof.
  induction 1 as [|a r Hr [IH1 IH2] Ha]; [split; [reflexivity|constructor]|].
  cbn [filter]. destruct (Z.leb_spec c (key a)) as [Hc|Hc].
  - cbn [length firstn skipn]. split; [now rewrite <- IH1|assumption].
  - assert (Hall : Forall (fun b => (key b < c)%Z) r).
    { eapply Forall_impl; [|exact Ha]. simpl. intros b Hb. lia. }
    assert (E : filter (fun b => (c <=? key b)%Z) r = []).
    { clear -Hall. induction Hall as [|b r Hb _ IH]; [reflexivity|].
      cbn [filter]. destruct (Z.leb_spec c (key b)); [lia|assumption]. }
    rewrite E. cbn [length firstn skipn]. split; [reflexivity|].
    now constructor.
Qed.

(** X17: the strong candidates (score at least 4) are exactly the leading
    entries of the displayed ranking, in the same order; every result
    displayed after them has a score below 4. *)
Theorem strong_candidates_lead_ranking
    (download : string -> result DataFrame) (tickers : list string) :
  let results := fst (run_screener_on download tickers) in
  let n := length (strong_candidates results) in
  strong_candidates results = firstn n results /\
  Forall (fun r => (score r < 4)%Z) (skipn n results).
Proof.
  cbv zeta. unfold strong_candidates, run_screener_on.
  destruct (screen_each download tickers []) as [rs pr]. cbn [fst].
  apply filter_sorted_prefix, sort_reverse_sorted.
Qed.

(** X18: the star display of a non-negative score has as many filled stars
    as the score; it is five characters long up to a score of 5, and longer
    above: a score of 6 is shown as six filled stars. *)
Theorem score_display_length (sc : Z) :
  (0 <= sc)%Z ->
  length (score_display sc) = Z.to_nat (Z.max 5 sc) /\
  firstn (Z.to_nat sc) (score_display sc) = repeat FilledStar (Z.to_nat sc) /\
  Forall (fun c => c = HollowStar) (skipn (Z.to_nat sc) (score_display sc)).
Proof.
  intros H. unfold score_display. split; [|split].
  - rewrite length_app, !repeat_length. lia.
  - rewrite firstn_app, repeat_length, Nat.sub_diag. cbn [firstn].
    rewrite app_nil_r. apply firstn_all2. rewrite repeat_length. lia.
  - rewrite skipn_app, repeat_length, Nat.sub_diag. cbn [skipn].
    rewrite skipn_all2 by (rewrite repeat_length; lia). cbn [app].
    apply Forall_forall. intros x Hx. now apply repeat_spec in Hx.
Qed.

Lemma score_display_length_witness :
  length (score_display 6) = Z.to_nat (Z.max 5 6) /\
  firstn (Z.to_nat 6) (score_display 6) = repeat FilledStar (Z.to_nat 6) /\
  Forall (fun c => c = HollowStar) (skipn (Z.to_nat 6) (score_display 6)).
Proof. apply (score_display_length 6). lia. Defined.

Lemma latest_app_one (s : Series) (x : float) : latest (s ++ [x]) = x.
Proof. apply last_last. Qed.

(** X19: a result reports the last bar of the series: its price is the
    close of that bar, its volume the volume of that bar, under the ticker
    that was passed. *)
Theorem result_reports_last_bar (t : string) (data : DataFrame) (b : bar) :
  (RSI_PERIOD <= length (data ++ [b]))%nat ->
  exists s,
    screen_stock t (data ++ [b]) = Some s /\
    ticker s = t /\ price s = Close b /\ volume s = Volume b.
Proof.
  intros Hl.
  destruct (screen_stock_enough_data t (data ++ [b]) Hl)
    as (m & _ & _ & _ & _ & E).
  cbv zeta in E. eexists. split; [exact E|].
  cbn [ticker price volume]. rewrite !map_app. cbn [map].
  rewrite !latest_app_one. split; [reflexivity|]. split; reflexivity.
Qed.

Lemma result_reports_last_bar_witness :
  exists s,
    screen_stock "BBCA.JK"%string
      (fourteen_rising_bars ++ [{| Close := Fin 15; Volume := Fin 900 |}])
    = Some s /\
    ticker s = "BBCA.JK"%string /\ price s = Fin 15 /\ volume s = Fin 900.
Proof.
  apply (result_reports_last_bar "BBCA.JK"%string fourteen_rising_bars
           {| Close := Fin 15; Volume := Fin 900 |}).
  simpl. unfold RSI_PERIOD. lia.
Defined.
